(** * LocalDesk-Skills: the ffmpeg resolver and the markdown validation suites

    A shallow embedding of
    - [skills/media-assistant/scripts/get_ffmpeg_path.py]
      ([get_ffmpeg_path], [main]),
    - [test/media-assistant/test_skill_instructions.py]
      (the frontmatter checks of the media-assistant skill),
    - [tests/rust-ffmpeg/test_skill_frontmatter.py] and
      [tests/rust-ffmpeg/test_links.py] (the checks of the rust-ffmpeg skill),
    together with the properties of these functions.

    Python [str] values are Rocq strings, one character per code point
    (code points below 256).  Python dictionaries are finite maps. *)

From stdpp Require Import base option list strings gmap sorting.
From Stdlib Require Import Ascii ZArith Lia.
From Stdlib Require String.

(** ** Python values, truthiness, exceptions *)

Module Py.

(** The line feed, written [\n] in the sources. *)
Definition LF : ascii := ascii_of_nat 10.
Definition nl : string := String LF EmptyString.

(** The values that flow through the resolver: [Optional[str]]. *)
Inductive value : Type :=
| None_
| Str (s : string).

(** [bool(v)]: [None] and the empty string are falsy. *)
Definition truthy (v : value) : bool :=
  match v with
  | None_ => false
  | Str s => negb (String.eqb s "")
  end.

(** [str(v)] as [print] renders it. *)
Definition str (v : value) : string :=
  match v with
  | None_ => "None"
  | Str s => s
  end.

(** Exception classes that occur in the sources, and a few neighbours. *)
Inductive exc_class : Type :=
| ImportError
| ModuleNotFoundError
| RuntimeError
| OSError
| TypeError
| AssertionError.

Definition exc_class_eqb (a b : exc_class) : bool :=
  match a, b with
  | ImportError, ImportError
  | ModuleNotFoundError, ModuleNotFoundError
  | RuntimeError, RuntimeError
  | OSError, OSError
  | TypeError, TypeError
  | AssertionError, AssertionError => true
  | _, _ => false
  end.

(** [issubclass a b]: the only proper subclass relation among the classes
    above is [ModuleNotFoundError <: ImportError]. *)
Definition issubclass (a b : exc_class) : bool :=
  match a, b with
  | ModuleNotFoundError, ImportError => true
  | _, _ => exc_class_eqb a b
  end.

Record exc : Type := Exc { exc_cls : exc_class; exc_msg : string }.

(** What an [except C:] clause tests. *)
Definition isinstance (e : exc) (c : exc_class) : bool :=
  issubclass (exc_cls e) c.

(** A call either returns or raises. *)
Inductive outcome (A : Type) : Type :=
| Return (a : A)
| Raise (e : exc).
Arguments Return {A} a.
Arguments Raise {A} e.

End Py.
Export Py.

(** ** The process: observable events and the effect monad *)

Inductive stream : Type := stdout | stderr.

(** Everything the resolver does to the outside world, in order. *)
Inductive event : Type :=
| ImportFrom (module name : string)   (* [from module import name] *)
| Call (func : string) (arg : value)  (* a call into an external library *)
| Write (f : stream) (text : string). (* text written to a stream *)

Definition trace := list event.

(** A computation extends the trace and returns or raises. *)
Definition M (A : Type) : Type := trace -> outcome A * trace.

Definition ret {A} (a : A) : M A := fun t => (Return a, t).

Definition raise {A} (e : exc) : M A := fun t => (Raise e, t).

Definition bind {A B} (m : M A) (f : A -> M B) : M B :=
  fun t =>
    match m t with
    | (Return a, t') => f a t'
    | (Raise e, t') => (Raise e, t')
    end.

Definition emit (ev : event) : M unit := fun t => (Return tt, t ++ [ev]).

(** [try: body except cls as e: handler e]. *)
Definition try_except {A} (body : M A) (cls : exc_class) (handler : exc -> M A)
  : M A :=
  fun t =>
    match body t with
    | (Return a, t') => (Return a, t')
    | (Raise e, t') =>
        if isinstance e cls then handler e t' else (Raise e, t')
    end.

Declare Scope py_scope.
Delimit Scope py_scope with py.
Notation "'let*' x ':=' m 'in' k" := (bind m (fun x => k))
  (at level 10, x name, m at level 100, k at level 200) : py_scope.
Notation "m ';;' k" := (bind m (fun _ => k))
  (at level 100, k at level 200, right associativity) : py_scope.

(** [print(s, file=f)] writes [s] and a line feed. *)
Definition print (s : string) (f : stream) : M unit :=
  emit (Write f (s +:+ nl)).

(** ** The environment of one call *)

(** The optional bundled-binary provider [imageio_ffmpeg]. *)
Inductive provider : Type :=
| NotImportable (e : exc)
    (* [from imageio_ffmpeg import get_ffmpeg_exe] raises [e] *)
| Importable (get_ffmpeg_exe : outcome value).
    (* the import binds [get_ffmpeg_exe]; calling it has this outcome *)

Record Env : Type := {
  imageio_ffmpeg : provider;
  (** [shutil.which]: the OS search path as an oracle from command names to
      [None] or a path. *)
  which : string -> value
}.

Section Resolver.

Variable env : Env.

Local Open Scope py_scope.

(** [from imageio_ffmpeg import get_ffmpeg_exe]: yields the callable. *)
Definition import_get_ffmpeg_exe : M (M value) :=
  emit (ImportFrom "imageio_ffmpeg" "get_ffmpeg_exe") ;;
  match imageio_ffmpeg env with
  | NotImportable e => raise e
  | Importable res =>
      ret (emit (Call "imageio_ffmpeg.get_ffmpeg_exe" None_) ;;
           match res with
           | Return v => ret v
           | Raise e => raise e
           end)
  end.

(** [shutil.which(cmd)]. *)
Definition shutil_which (cmd : string) : M value :=
  emit (Call "shutil.which" (Str cmd)) ;; ret (which env cmd).

(** The message of the [RuntimeError] raised at lines 48-51. *)
Definition not_found_message : string :=
  "FFmpeg not found. Install with: pip install imageio-ffmpeg" +:+ nl +:+
  "Or install ffmpeg system-wide: https://ffmpeg.org/download.html".

(** Lines 42-51: the search on the OS path, and the error when it finds
    nothing. *)
Definition system_ffmpeg_fallback : M value :=
  let* system_ffmpeg := shutil_which "ffmpeg" in
  if truthy system_ffmpeg then ret system_ffmpeg
  else raise (Exc RuntimeError not_found_message).

(** [get_ffmpeg_path()], lines 19-51.  The [try] block of lines 34-40 either
    leaves the function with a path ([Some path]) or falls through
    ([None]). *)
Definition get_ffmpeg_path : M value :=
  let* early :=
    try_except
      (let* get_ffmpeg_exe := import_get_ffmpeg_exe in
       let* path := get_ffmpeg_exe in
       if truthy path then ret (Some path) else ret None)
      ImportError
      (fun _ => ret None) in
  match early with
  | Some path => ret path
  | None => system_ffmpeg_fallback
  end.

(** [main()], lines 54-61. *)
Definition main : M Z :=
  try_except
    (let* path := get_ffmpeg_path in
     print (str path) stdout ;;
     ret 0%Z)
    RuntimeError
    (fun e => print (exc_msg e) stderr ;; ret 1%Z).

End Resolver.

(** *** Observations on traces *)

Definition is_which_call (ev : event) : bool :=
  match ev with
  | Call f _ => String.eqb f "shutil.which"
  | _ => false
  end.

(** Was the second strategy consulted? *)
Definition consulted_which (t : trace) : bool := existsb is_which_call t.

Definition stream_eqb (f g : stream) : bool :=
  match f, g with
  | stdout, stdout | stderr, stderr => true
  | _, _ => false
  end.

(** The texts written to a stream, in order. *)
Definition written (f : stream) (t : trace) : list string :=
  omap (fun ev =>
          match ev with
          | Write g text => if stream_eqb f g then Some text else None
          | _ => None
          end) t.

(** The result and the events of a run from the empty trace. *)
Definition run {A} (m : M A) : outcome A * trace := m [].

(** The events of the first strategy. *)
Definition import_event : event := ImportFrom "imageio_ffmpeg" "get_ffmpeg_exe".
Definition provider_call : event := Call "imageio_ffmpeg.get_ffmpeg_exe" None_.
Definition which_call : event := Call "shutil.which" (Str "ffmpeg").

(** The first strategy yields no path: the import or the call raises an
    [ImportError], or the call returns a falsy value. *)
Definition provider_skips (env : Env) : bool :=
  match imageio_ffmpeg env with
  | NotImportable e => isinstance e ImportError
  | Importable (Raise e) => isinstance e ImportError
  | Importable (Return v) => negb (truthy v)
  end.

(** The calls of [shutil.which] in a trace. *)
Definition which_calls (t : trace) : list event := filter is_which_call t.

(** The provider is installed and finds no binary: its call raises a
    [RuntimeError] of its own. *)
Definition scenario_provider_gives_up : Env :=
  {| imageio_ffmpeg :=
       Importable (Raise (Exc RuntimeError "No ffmpeg exe could be found."));
     which := fun _ => Str "/usr/bin/ffmpeg" |}.

(** *** The environments of [test_get_ffmpeg_path.py] *)

Definition not_installed : exc :=
  Exc ImportError "No module named 'imageio_ffmpeg'".

(** The provider returns [/fake/path/ffmpeg]; here the OS path has no
    ffmpeg. *)
Definition scenario_1 : Env :=
  {| imageio_ffmpeg := Importable (Return (Str "/fake/path/ffmpeg"));
     which := fun _ => None_ |}.

(** The provider is not installed; the OS path has [/usr/bin/ffmpeg]. *)
Definition scenario_2 : Env :=
  {| imageio_ffmpeg := NotImportable not_installed;
     which := fun _ => Str "/usr/bin/ffmpeg" |}.

(** The provider is not installed; the OS path has nothing. *)
Definition scenario_3 : Env :=
  {| imageio_ffmpeg := NotImportable not_installed;
     which := fun _ => None_ |}.

(** The provider is installed and its call fails with an [OSError]. *)
Definition scenario_broken_provider : Env :=
  {| imageio_ffmpeg := Importable (Raise (Exc OSError "exec format error"));
     which := fun _ => Str "/usr/bin/ffmpeg" |}.

(** ** The process between calls

    What a Python process keeps from one call of [get_ffmpeg_path] to the
    next is [sys.modules], the cache of the [import] statement: the
    function assigns to local names only.  Here [sys.modules] is kept for
    the two modules that the function imports, and the [import] statements
    of lines 35 and 43 read and write it. *)

Declare Scope process_scope.

Module Process.

Record state : Type := {
  (** [sys.modules.get("imageio_ffmpeg")]: the loaded module, given by
      what its [get_ffmpeg_exe] does. *)
  imageio_ffmpeg_loaded : option (outcome value);
  (** ["shutil" in sys.modules]. *)
  shutil_loaded : bool;
  (** The events so far. *)
  log : trace
}.


(** A computation changes the process and returns or raises. *)
Definition P (A : Type) : Type := state -> outcome A * state.

Definition ret {A} (a : A) : P A := fun s => (Return a, s).

Definition raise {A} (e : exc) : P A := fun s => (Raise e, s).

Definition bind {A B} (m : P A) (f : A -> P B) : P B :=
  fun s =>
    match m s with
    | (Return a, s') => f a s'
    | (Raise e, s') => (Raise e, s')
    end.

Definition emit (ev : event) : P unit :=
  fun s =>
    (Return tt,
     {| imageio_ffmpeg_loaded := imageio_ffmpeg_loaded s;
        shutil_loaded := shutil_loaded s;
        log := log s ++ [ev] |}).

Definition try_except {A} (body : P A) (cls : exc_class) (handler : exc -> P A)
  : P A :=
  fun s =>
    match body s with
    | (Return a, s') => (Return a, s')
    | (Raise e, s') =>
        if isinstance e cls then handler e s' else (Raise e, s')
    end.

Notation "'let*' x ':=' m 'in' k" := (bind m (fun x => k))
  (at level 10, x name, m at level 100, k at level 200, only parsing)
  : process_scope.
Notation "m ';;' k" := (bind m (fun _ => k))
  (at level 100, k at level 200, right associativity, only parsing)
  : process_scope.

Section Resolver.

Variable env : Env.

Local Open Scope process_scope.

(** The import system for [imageio_ffmpeg]: a module found in
    [sys.modules] is used as it is; otherwise the installed package is
    loaded and, when that succeeds, entered into [sys.modules]. *)
Definition load_imageio_ffmpeg : P (outcome value) :=
  fun s =>
    match imageio_ffmpeg_loaded s with
    | Some module => (Return module, s)
    | None =>
        match imageio_ffmpeg env with
        | NotImportable e => (Raise e, s)
        | Importable module =>
            (Return module,
             {| imageio_ffmpeg_loaded := Some module;
                shutil_loaded := shutil_loaded s;
                log := log s |})
        end
    end.

(** [from imageio_ffmpeg import get_ffmpeg_exe], line 35. *)
Definition import_get_ffmpeg_exe : P (P value) :=
  emit import_event ;;
  let* module := load_imageio_ffmpeg in
  ret (emit provider_call ;;
       match module with
       | Return v => ret v
       | Raise e => raise e
       end).

(** [import shutil], line 43: the standard library module is entered into
    [sys.modules]. *)
Definition import_shutil : P unit :=
  fun s =>
    (Return tt,
     {| imageio_ffmpeg_loaded := imageio_ffmpeg_loaded s;
        shutil_loaded := true;
        log := log s |}).

(** [shutil.which(cmd)]. *)
Definition shutil_which (cmd : string) : P value :=
  emit (Call "shutil.which" (Str cmd)) ;; ret (which env cmd).

(** Lines 42-51. *)
Definition system_ffmpeg_fallback : P value :=
  import_shutil ;;
  let* system_ffmpeg := shutil_which "ffmpeg" in
  if truthy system_ffmpeg then ret system_ffmpeg
  else raise (Exc RuntimeError not_found_message).

(** [get_ffmpeg_path()], lines 19-51, in the process. *)
Definition get_ffmpeg_path : P value :=
  let* early :=
    try_except
      (let* get_ffmpeg_exe := import_get_ffmpeg_exe in
       let* path := get_ffmpeg_exe in
       if truthy path then ret (Some path) else ret None)
      ImportError
      (fun _ => ret None) in
  match early with
  | Some path => ret path
  | None => system_ffmpeg_fallback
  end.





End Resolver.

End Process.

(** ** Python string methods *)

Module PyStr.

Definition chars (s : string) : list ascii := String.list_ascii_of_string s.
Definition of_chars (l : list ascii) : string := String.string_of_list_ascii l.

Definition code (c : ascii) : nat := nat_of_ascii c.

Definition in_range (lo hi : nat) (c : ascii) : bool :=
  (lo <=? code c)%nat && (code c <=? hi)%nat.

(** [len(s)]. *)
Definition len (s : string) : nat := String.length s.

(** [c.isspace()] for code points below 256: tab to carriage return, the
    four separators 0x1c-0x1f, space, NEL and the no-break space. *)
Definition isspace (c : ascii) : bool :=
  in_range 9 13 c || in_range 28 32 c
  || (code c =? 133)%nat || (code c =? 160)%nat.

(** [c.lower()] for code points below 256: A-Z, and the Latin-1 capitals
    0xC0-0xDE without the multiplication sign 0xD7. *)
Definition lower_char (c : ascii) : ascii :=
  if in_range 65 90 c || (in_range 192 222 c && negb (code c =? 215)%nat)
  then ascii_of_nat (code c + 32)
  else c.

(** [s.lower()]. *)
Definition lower (s : string) : string := of_chars (map lower_char (chars s)).

Fixpoint drop_while (p : ascii -> bool) (l : list ascii) : list ascii :=
  match l with
  | c :: l' => if p c then drop_while p l' else l
  | [] => []
  end.

(** Strip from both ends the characters that satisfy [p]. *)
Definition strip_by (p : ascii -> bool) (s : string) : string :=
  of_chars (rev (drop_while p (rev (drop_while p (chars s))))).

(** [s.strip()]. *)
Definition strip (s : string) : string := strip_by isspace s.

Definition mem_char (c : ascii) (set : list ascii) : bool :=
  existsb (Ascii.eqb c) set.

(** [s.strip(set)]. *)
Definition strip_chars (set : list ascii) (s : string) : string :=
  strip_by (fun c => mem_char c set) s.

Fixpoint is_prefix (p l : list ascii) : bool :=
  match p, l with
  | [], _ => true
  | a :: p', b :: l' => Ascii.eqb a b && is_prefix p' l'
  | _ :: _, [] => false
  end.

(** [s.startswith(p)]. *)
Definition startswith (s p : string) : bool := is_prefix (chars p) (chars s).

(** [s.endswith(p)]. *)
Definition endswith (s p : string) : bool :=
  is_prefix (rev (chars p)) (rev (chars s)).

Fixpoint has_infix (p l : list ascii) : bool :=
  is_prefix p l ||
  match l with
  | [] => false
  | _ :: l' => has_infix p l'
  end.

(** [sub in s]. *)
Definition contains (sub s : string) : bool := has_infix (chars sub) (chars s).

End PyStr.

(** ** The fragment of Python's [re] that the sources use

    A backtracking matcher in continuation-passing style, with Python's
    preference order: repetitions and [?] are greedy, and a failure of the
    rest of the pattern makes them give characters back one at a time.  All
    repetitions in the patterns of the sources range over one-character
    classes. *)

Module Re.

Inductive regex : Type :=
| Chr (c : ascii)                (* a literal character *)
| Cls (p : ascii -> bool)        (* a character class, [.] included *)
| Star (p : ascii -> bool)       (* [X*] for a one-character [X] *)
| Plus (p : ascii -> bool)       (* [X+] for a one-character [X] *)
| Opt (r : regex)                (* [(?:r)?] *)
| Group (n : nat) (r : regex)    (* the n-th capturing group [(r)] *)
| Seq (r1 r2 : regex)            (* [r1 r2] *)
| Bol                            (* [^] *)
| Eol.                           (* [$] *)

(** A literal string. *)
Fixpoint lit (l : list ascii) (rest : regex) : regex :=
  match l with
  | [] => rest
  | c :: l' => Seq (Chr c) (lit l' rest)
  end.

(** Classes. *)
Definition dot (c : ascii) : bool := negb (Ascii.eqb c LF).
Definition none_of (set : list ascii) (c : ascii) : bool :=
  negb (PyStr.mem_char c set).

(** [m.start()], [m.end()] and the captured groups of a match object. *)
Record match_obj : Type := {
  m_start : nat;
  m_end : nat;
  m_groups : gmap nat string
}.

(** [m.group(n)]: [None] when group [n] did not take part. *)
Definition group (m : match_obj) (n : nat) : option string := m_groups m !! n.

Section Matcher.

(** [re.MULTILINE]. *)
Variable multiline : bool.

(** The position is the text before it, reversed, and the text after. *)
Definition at_bol (before : list ascii) : bool :=
  match before with
  | [] => true
  | c :: _ => multiline && Ascii.eqb c LF
  end.

Definition at_eol (after : list ascii) : bool :=
  match after with
  | [] => true
  | [c] => Ascii.eqb c LF
  | c :: _ => multiline && Ascii.eqb c LF
  end.

Context {R : Type}.

(** Greedy repetition of a class: the longest run first. *)
Fixpoint star (p : ascii -> bool) (before after : list ascii)
    (k : list ascii -> list ascii -> option R) : option R :=
  match after with
  | c :: after' =>
      if p c then
        match star p (c :: before) after' k with
        | Some res => Some res
        | None => k before after
        end
      else k before after
  | [] => k before after
  end.

(** The text between two positions, the second one later. *)
Definition span (before before' : list ascii) : string :=
  PyStr.of_chars (rev (take (length before' - length before) before')).

Fixpoint go (r : regex) (before after : list ascii) (g : gmap nat string)
    (k : list ascii -> list ascii -> gmap nat string -> option R)
  : option R :=
  match r with
  | Chr c =>
      match after with
      | x :: after' =>
          if Ascii.eqb x c then k (x :: before) after' g else None
      | [] => None
      end
  | Cls p =>
      match after with
      | x :: after' => if p x then k (x :: before) after' g else None
      | [] => None
      end
  | Star p => star p before after (fun b a => k b a g)
  | Plus p =>
      match after with
      | x :: after' =>
          if p x then star p (x :: before) after' (fun b a => k b a g)
          else None
      | [] => None
      end
  | Opt r' =>
      match go r' before after g k with
      | Some res => Some res
      | None => k before after g
      end
  | Group n r' =>
      go r' before after g
         (fun b a g' => k b a (<[n := span before b]> g'))
  | Seq r1 r2 =>
      go r1 before after g (fun b a g' => go r2 b a g' k)
  | Bol => if at_bol before then k before after g else None
  | Eol => if at_eol after then k before after g else None
  end.

End Matcher.

(** One match attempt at a position. *)
Definition match_at (ml : bool) (r : regex) (before after : list ascii)
  : option match_obj :=
  go ml r before after ∅
     (fun b _ g =>
        Some {| m_start := length before; m_end := length b; m_groups := g |}).

(** The leftmost match at or after a position. *)
Fixpoint search_from (ml : bool) (r : regex) (before after : list ascii)
  : option match_obj :=
  match match_at ml r before after with
  | Some m => Some m
  | None =>
      match after with
      | c :: after' => search_from ml r (c :: before) after'
      | [] => None
      end
  end.

(** The non-overlapping matches from a position on, left to right; [skip]
    characters are still covered by the previous match. *)
Fixpoint finditer_from (ml : bool) (r : regex) (skip : nat)
    (before after : list ascii) : list match_obj :=
  let next (n : nat) :=
    match after with
    | c :: after' => finditer_from ml r n (c :: before) after'
    | [] => []
    end in
  match skip with
  | S n => next n
  | O =>
      match match_at ml r before after with
      | Some m => m :: next (m_end m - m_start m - 1)
      | None => next 0
      end
  end.

(** [re.match(r, s)]. *)
Definition match_ (ml : bool) (r : regex) (s : string) : option match_obj :=
  match_at ml r [] (PyStr.chars s).

(** [re.search(r, s)]. *)
Definition search (ml : bool) (r : regex) (s : string) : option match_obj :=
  search_from ml r [] (PyStr.chars s).

(** [r.finditer(s)], for patterns that match no empty string. *)
Definition finditer (ml : bool) (r : regex) (s : string) : list match_obj :=
  finditer_from ml r 0 [] (PyStr.chars s).

End Re.

(** ** Assertions of the test suites *)

(** [assert cond, msg]. *)
Definition assert_ (cond : bool) (msg : string) : outcome unit :=
  if cond then Return tt else Raise (Exc AssertionError msg).

(** Sequencing of statements without effects on the outside world. *)
Definition and_then {A B} (o : outcome A) (f : A -> outcome B) : outcome B :=
  match o with
  | Return a => f a
  | Raise e => Raise e
  end.

Notation "o '>>' k" := (and_then o (fun _ => k))
  (at level 100, k at level 200, right associativity) : py_scope.

(** Does a test pass? *)
Definition passes {A} (o : outcome A) : bool :=
  match o with
  | Return _ => true
  | Raise _ => false
  end.

(** ** [test/media-assistant/test_skill_instructions.py] *)

Module MediaAssistant.

Import PyStr Re.
Local Open Scope py_scope.

(** The single and the double quote, the characters of the second
    [strip]. *)
Definition quotes : list ascii := ["'"%char; ascii_of_nat 34].

(** [r"^name:\s*(.+)$"], used with [re.MULTILINE]. *)
Definition NAME_FIELD : regex :=
  Seq Bol (lit (chars "name:")
    (Seq (Star isspace) (Seq (Group 1 (Plus dot)) Eol))).

(** [r"^description:\s*(.+)$"], used with [re.MULTILINE]. *)
Definition DESCRIPTION_FIELD : regex :=
  Seq Bol (lit (chars "description:")
    (Seq (Star isspace) (Seq (Group 1 (Plus dot)) Eol))).

(** [a-z0-9\-]. *)
Definition name_char (c : ascii) : bool :=
  in_range 97 122 c || in_range 48 57 c || Ascii.eqb c "-"%char.

(** [r"^[a-z0-9\-]+$"], used without flags. *)
Definition NAME_CHARS : regex := Seq Bol (Seq (Plus name_char) Eol).

(** [match.group(1)], stripped of white space and then of quotes; group 1
    takes part in every match of the two field patterns. *)
Definition field_value (m : match_obj) : string :=
  strip_chars quotes (strip (default "" (group m 1))).

(** Lines 53-57 of [test_skill_name_format]: the assertions on [name]. *)
Definition check_name_format (name : string) : outcome unit :=
  assert_ (String.eqb name (lower name)) "Name must be lowercase" >>
  assert_ (negb (contains "--" name))
          "Name must not contain consecutive hyphens" >>
  assert_ (negb (startswith name "-")) "Name must not start with hyphen" >>
  assert_ (negb (endswith name "-")) "Name must not end with hyphen" >>
  assert_ (bool_decide (is_Some (match_ false NAME_CHARS name)))
          "Name must contain only a-z, 0-9, hyphens".

(** [test_skill_name_format], lines 47-57, on the text of [SKILL.md]. *)
Definition test_skill_name_format (content : string) : outcome unit :=
  match search true NAME_FIELD content with
  | None => Raise (Exc AssertionError "")
  | Some m => check_name_format (field_value m)
  end.

(** Lines 43-44 of [test_skill_description_non_empty]: the assertions on
    [desc]. *)
Definition check_description (desc : string) : outcome unit :=
  assert_ (0 <? len desc)%nat "Description must not be empty" >>
  assert_ (len desc <=? 1024)%nat "Description must be max 1024 characters".

(** [test_skill_description_non_empty], lines 37-44. *)
Definition test_skill_description_non_empty (content : string)
  : outcome unit :=
  match search true DESCRIPTION_FIELD content with
  | None => Raise (Exc AssertionError "Could not find description field")
  | Some m => check_description (field_value m)
  end.

(** *** The name format in the words of the specification

    "lowercase, hyphenated, no consecutive hyphens". *)

Definition is_lowercase (name : string) : bool :=
  String.eqb name (lower name).

(** Made of lower-case letters, digits and hyphens, and not empty. *)
Definition is_hyphenated (name : string) : bool :=
  negb (String.eqb name "") && forallb name_char (chars name).

Definition no_consecutive_hyphens (name : string) : bool :=
  negb (contains "--" name).

Definition spec_name_format (name : string) : bool :=
  is_lowercase name && is_hyphenated name && no_consecutive_hyphens name.

(** A value without line feed, as group 1 of [NAME_FIELD] captures it:
    every character is one that [.] matches. *)
Definition single_line (name : string) : bool := forallb dot (chars name).

End MediaAssistant.

(** ** [tests/rust-ffmpeg/test_skill_frontmatter.py] *)

Module RustFfmpeg.

Import PyStr.
Local Open Scope py_scope.

(** What [yaml.safe_load] can put into the frontmatter dictionary. *)
#[warnings="-register-all"] Inductive yaml : Type :=
| YNull
| YBool (b : bool)
| YInt (z : Z)
| YStr (s : string)
| YSeq (items : list yaml)
| YMap (entries : list (string * yaml)).

(** [len(v)]: defined on strings, lists and dictionaries. *)
Definition py_len (v : yaml) : outcome nat :=
  match v with
  | YStr s => Return (len s)
  | YSeq items => Return (length items)
  | YMap entries => Return (length entries)
  | YNull | YBool _ | YInt _ => Raise (Exc TypeError "object has no len()")
  end.

(** [test_description_length_reasonable], lines 25-28. *)
Definition test_description_length_reasonable
    (skill_frontmatter : gmap string yaml) : outcome unit :=
  let desc := default (YStr "") (skill_frontmatter !! "description") in
  and_then (py_len desc) (fun n =>
  assert_ (n <? 4096)%nat "Description exceeds 4096 characters").

(** A description of 2000 characters, and a frontmatter that carries it. *)
Definition long_description : string :=
  of_chars (replicate 2000 "x"%char).

Definition long_frontmatter : gmap string yaml :=
  {[ "name" := YStr "rust-ffmpeg";
     "description" := YStr long_description;
     "license" := YStr "MIT" ]}.

End RustFfmpeg.

(** ** [tests/rust-ffmpeg/test_links.py] *)

Module Links.

Import PyStr Re.

(** [LINK_PATTERN], line 9: an opening bracket, the text without closing
    bracket (group 1), a closing bracket and an opening parenthesis, the
    path without closing parenthesis and hash (group 2), an optional hash
    followed by [.*], and a closing parenthesis. *)
Definition LINK_PATTERN : regex :=
  Seq (Chr "["%char)
 (Seq (Group 1 (Star (none_of ["]"%char])))
 (Seq (Chr "]"%char)
 (Seq (Chr "("%char)
 (Seq (Group 2 (Plus (none_of [")"%char; "#"%char])))
 (Seq (Opt (Seq (Chr "#"%char) (Star dot)))
      (Chr ")"%char)))))).

(** The part of [pathlib.Path] and of the file system that the checker
    uses. *)
Class FileSystem (Path : Type) : Type := {
  joinpath : Path -> string -> Path;  (* [p / name] *)
  parent : Path -> Path;              (* [p.parent] *)
  resolve : Path -> Path;             (* [p.resolve()] *)
  exists_ : Path -> bool;             (* [p.exists()] *)
  read_text : Path -> string;         (* [p.read_text(encoding="utf-8")] *)
  rglob_md : Path -> list Path        (* [p.rglob("*.md")] *)
}.

Section Checker.

Context {Path : Type} `{FileSystem Path}.

(** The external schemes of line 19. *)
Definition external_prefixes : list string :=
  ["http://"; "https://"; "mailto:"].

(** The loop of [_extract_internal_links], lines 15-22, over the matches. *)
Fixpoint links_of_matches (matches : list match_obj) (base_dir : Path)
  : list (string * Path) :=
  match matches with
  | [] => []
  | m :: rest =>
      let raw_path := strip (default "" (group m 2)) in
      if String.eqb raw_path "" then links_of_matches rest base_dir
      else if existsb (startswith raw_path) external_prefixes
      then links_of_matches rest base_dir
      else (raw_path, resolve (joinpath base_dir raw_path))
             :: links_of_matches rest base_dir
  end.

(** [_extract_internal_links], lines 12-23. *)
Definition _extract_internal_links (content : string) (base_dir : Path)
  : list (string * Path) :=
  links_of_matches (finditer false LINK_PATTERN content) base_dir.

(** [_collect_all_md_files], lines 26-34. *)
Definition _collect_all_md_files (skill_root : Path) : list Path :=
  let skill_md := joinpath skill_root "SKILL.md" in
  let refs := joinpath skill_root "references" in
  (if exists_ skill_md then [skill_md] else [])
  ++ (if exists_ refs then rglob_md refs else []).

(** The inner loop of [_find_broken_links], lines 43-45. *)
Definition broken_in (md_file : Path) : list (Path * string * Path) :=
  let content := read_text md_file in
  let base_dir := parent md_file in
  omap (fun '(raw_path, resolved) =>
          if exists_ resolved then None
          else Some (md_file, raw_path, resolved))
       (_extract_internal_links content base_dir).

(** [_find_broken_links], lines 37-46. *)
Definition _find_broken_links (skill_root : Path)
  : list (Path * string * Path) :=
  flat_map broken_in (_collect_all_md_files skill_root).

End Checker.

(** *** A file system in memory

    Files are given by absolute path and text.  There are no symbolic links,
    and joined names are relative and free of dot segments, so that
    [resolve] has nothing to do.  A directory exists when a file lies
    below it. *)

Definition under (dir p : string) : bool := startswith p (dir +:+ "/").

Definition mem_parent (p : string) : string :=
  of_chars (rev (drop 1 (drop_while (fun c => negb (Ascii.eqb c "/"%char))
                                    (rev (chars p))))).

Definition mem_exists (files : list (string * string)) (p : string) : bool :=
  existsb (fun '(q, _) => String.eqb q p || under p q) files.

Definition mem_read (files : list (string * string)) (p : string) : string :=
  default "" (snd <$> find (fun '(q, _) => String.eqb q p) files).

Definition mem_rglob_md (files : list (string * string)) (dir : string)
  : list string :=
  filter (fun q => under dir q && endswith q ".md") (fst <$> files).

Definition mem_fs (files : list (string * string)) : FileSystem string := {|
  joinpath p name := p +:+ "/" +:+ name;
  parent := mem_parent;
  resolve p := p;
  exists_ := mem_exists files;
  read_text := mem_read files;
  rglob_md := mem_rglob_md files
|}.

(** A skill whose [SKILL.md] has two links on one line, the first with an
    anchor, the second to a file that does not exist. *)
Definition skill_two_links : list (string * string) :=
  [ ("/repo/skills/rust-ffmpeg/SKILL.md",
     "See [Install](references/installation.md#linux) and [Quick start](references/quick_start.md).");
    ("/repo/skills/rust-ffmpeg/references/installation.md",
     "Installation") ].

(** The same skill with the two links in the other order. *)
Definition skill_two_links_swapped : list (string * string) :=
  [ ("/repo/skills/rust-ffmpeg/SKILL.md",
     "See [Quick start](references/quick_start.md) and [Install](references/installation.md#linux).");
    ("/repo/skills/rust-ffmpeg/references/installation.md",
     "Installation") ].

End Links.

(** ** More of [test/media-assistant/test_skill_instructions.py] *)

Module SkillInstructions.

Import PyStr Re MediaAssistant.
Local Open Scope py_scope.

(** The carriage return, written [\r] in the sources. *)
Definition CR : ascii := ascii_of_nat 13.

(** The class [[\s\S]]: every character. *)
Definition any_char (c : ascii) : bool := isspace c || negb (isspace c).

(** Lazy repetition of a class, [X*?]: the rest of the pattern is tried
    first, and one more character is taken only when it fails. *)
Fixpoint lazy_star {R : Type} (p : ascii -> bool) (before after : list ascii)
    (k : list ascii -> list ascii -> option R) : option R :=
  match k before after with
  | Some res => Some res
  | None =>
      match after with
      | c :: after' => if p c then lazy_star p (c :: before) after' k else None
      | [] => None
      end
  end.

(** [^---\r?\n], the part of the frontmatter pattern before its group. *)
Definition FRONTMATTER_OPEN : regex :=
  Seq Bol (lit (chars "---") (Seq (Opt (Chr CR)) (Chr LF))).

(** [\r?\n---], the part after the group. *)
Definition FRONTMATTER_CLOSE : regex :=
  Seq (Opt (Chr CR)) (Seq (Chr LF) (lit (chars "--") (Chr "-"%char))).

(** [re.match(r"^---\r?\n([\s\S]*?)\r?\n---", content)]: the opening part,
    the lazy group 1, the closing part. *)
Definition frontmatter_match (content : string) : option match_obj :=
  go false FRONTMATTER_OPEN [] (chars content) ∅
    (fun b a g =>
       lazy_star any_char b a
         (fun b' a' =>
            go false FRONTMATTER_CLOSE b' a' (<[1 := span b b']> g)
              (fun b'' _ g' =>
                 Some {| m_start := 0; m_end := length b'';
                         m_groups := g' |}))).

(** [test_skill_md_has_valid_frontmatter], lines 17-25. *)
Definition test_skill_md_has_valid_frontmatter (content : string)
  : outcome unit :=
  match frontmatter_match content with
  | None =>
      Raise (Exc AssertionError
               "SKILL.md must have YAML frontmatter between --- delimiters")
  | Some m =>
      let frontmatter := default "" (group m 1) in
      assert_ (contains "name:" frontmatter)
              "Frontmatter must contain 'name'" >>
      assert_ (contains "description:" frontmatter)
              "Frontmatter must contain 'description'"
  end.

(** [test_skill_name_matches], lines 28-34. *)
Definition test_skill_name_matches (content : string) : outcome unit :=
  match search true NAME_FIELD content with
  | None => Raise (Exc AssertionError "Could not find name field")
  | Some m =>
      let name := field_value m in
      assert_ (String.eqb name "media-assistant")
              ("Expected name 'media-assistant', got '" +:+ name +:+ "'")
  end.

(** The two line ends that the frontmatter pattern accepts. *)
Definition crlf : string := String CR nl.

(** A [SKILL.md] as the suite expects it. *)
Definition example_skill_md : string :=
  "---" +:+ nl +:+
  "name: media-assistant" +:+ nl +:+
  "description: Convert, trim and inspect media files with ffmpeg." +:+ nl +:+
  "---" +:+ nl +:+
  "# Media assistant" +:+ nl.

End SkillInstructions.

(** ** More of [tests/rust-ffmpeg/test_skill_frontmatter.py] *)

Module RustFrontmatter.

Import PyStr RustFfmpeg.
Local Open Scope py_scope.

(** [isinstance(v, str)]. *)
Definition is_str (v : yaml) : bool :=
  match v with
  | YStr _ => true
  | _ => false
  end.

(** [len(v.strip()) > 0] for a value known to be a string. *)
Definition stripped_nonempty (v : yaml) : bool :=
  match v with
  | YStr s => (0 <? len (strip s))%nat
  | _ => false
  end.

(** [d.get(key) == s] for a string [s]. *)
Definition get_equals (d : gmap string yaml) (key s : string) : bool :=
  match d !! key with
  | Some (YStr v) => String.eqb v s
  | _ => false
  end.

(** The three assertions shared by [test_frontmatter_has_name] and
    [test_frontmatter_has_description]. *)
Definition has_nonempty_str (d : gmap string yaml) (key : string)
  : outcome unit :=
  assert_ (bool_decide (is_Some (d !! key))) "" >>
  assert_ (is_str (default YNull (d !! key))) "" >>
  assert_ (stripped_nonempty (default YNull (d !! key))) "".

(** [test_frontmatter_has_name], lines 9-13. *)
Definition test_frontmatter_has_name (skill_frontmatter : gmap string yaml)
  : outcome unit :=
  has_nonempty_str skill_frontmatter "name".

(** [test_frontmatter_name_is_rust_ffmpeg], lines 15-17. *)
Definition test_frontmatter_name_is_rust_ffmpeg
    (skill_frontmatter : gmap string yaml) : outcome unit :=
  assert_ (get_equals skill_frontmatter "name" "rust-ffmpeg") "".

(** [test_frontmatter_has_description], lines 19-23. *)
Definition test_frontmatter_has_description
    (skill_frontmatter : gmap string yaml) : outcome unit :=
  has_nonempty_str skill_frontmatter "description".

(** [test_frontmatter_has_license], lines 30-32. *)
Definition test_frontmatter_has_license
    (skill_frontmatter : gmap string yaml) : outcome unit :=
  assert_ (get_equals skill_frontmatter "license" "MIT") "".

End RustFrontmatter.

(** ** [tests/rust-ffmpeg/conftest.py] *)

Module Conftest.

Import PyStr RustFfmpeg.

(** The first occurrence of [sep] in [l]: the text before it and the text
    after it. *)
Fixpoint split_once (sep l : list ascii)
  : option (list ascii * list ascii) :=
  if is_prefix sep l then Some ([], drop (length sep) l)
  else
    match l with
    | [] => None
    | c :: l' =>
        match split_once sep l' with
        | Some (pre, post) => Some (c :: pre, post)
        | None => None
        end
    end.

Fixpoint split_max (sep : list ascii) (maxsplit : nat) (l : list ascii)
  : list (list ascii) :=
  match maxsplit with
  | O => [l]
  | S n =>
      match split_once sep l with
      | None => [l]
      | Some (pre, post) => pre :: split_max sep n post
      end
  end.

(** [s.split(sep, maxsplit)] for a separator that is not empty. *)
Definition split (s sep : string) (maxsplit : nat) : list string :=
  of_chars <$> split_max (chars sep) maxsplit (chars s).

(** The text that the [skill_frontmatter] fixture hands to the YAML
    parser, lines 28-33: [None] where the fixture returns the empty
    dictionary without parsing. *)
Definition frontmatter_text (skill_md_content : string) : option string :=
  if negb (startswith (strip skill_md_content) "---") then None
  else
    let parts := split skill_md_content "---" 2 in
    if (length parts <? 3)%nat then None
    else parts !! 1%nat.

(** [bool(v)] on parsed YAML. *)
Definition yaml_truthy (v : yaml) : bool :=
  match v with
  | YNull => false
  | YBool b => b
  | YInt z => negb (z =? 0)%Z
  | YStr s => negb (String.eqb s "")
  | YSeq items => negb (bool_decide (items = []))
  | YMap entries => negb (bool_decide (entries = []))
  end.

Section Fixture.

(** [yaml.safe_load]. *)
Variable safe_load : string -> outcome yaml.

(** The [skill_frontmatter] fixture, lines 23-33. *)
Definition skill_frontmatter (skill_md_content : string) : outcome yaml :=
  match frontmatter_text skill_md_content with
  | None => Return (YMap [])
  | Some text =>
      and_then (safe_load text)
               (fun v => Return (if yaml_truthy v then v else YMap []))
  end.

End Fixture.

(** A [SKILL.md] of the rust-ffmpeg skill, and a parser that answers with
    the mapping it holds. *)
Definition example_skill_md : string :=
  "---" +:+ nl +:+
  "name: rust-ffmpeg" +:+ nl +:+
  "description: Work with FFmpeg from Rust." +:+ nl +:+
  "license: MIT" +:+ nl +:+
  "---" +:+ nl +:+
  "# Rust FFmpeg" +:+ nl.

Definition example_loader (text : string) : outcome yaml :=
  Return (YMap [ ("name", YStr "rust-ffmpeg");
                 ("description", YStr "Work with FFmpeg from Rust.");
                 ("license", YStr "MIT") ]).

End Conftest.

(** ** The verdict of a test that ends in [pytest.fail] *)

Inductive verdict : Type :=
| Passed
| Failed (msg : string).

(** ** [tests/rust-ffmpeg/test_references_exist.py] *)

Module ReferencesExist.

Import PyStr Links.

(** [EXPECTED_REFERENCES], lines 8-36. *)
Definition EXPECTED_REFERENCES : list string :=
  [ "references/ffmpeg_sidecar.md";
    "references/scenarios/video_transcoding.md";
    "references/scenarios/audio_extraction.md";
    "references/scenarios/transcoding.md";
    "references/scenarios/streaming_rtmp_hls.md";
    "references/scenarios/hardware_acceleration.md";
    "references/scenarios/batch_processing.md";
    "references/scenarios/subtitles.md";
    "references/scenarios/modern_codecs.md";
    "references/scenarios/debugging.md";
    "references/scenarios/filters_effects.md";
    "references/scenarios/image_sequences.md";
    "references/scenarios/testing.md";
    "references/scenarios/integration.md";
    "references/scenarios/gif_creation.md";
    "references/scenarios/metadata_chapters.md";
    "references/scenarios/capture.md";
    "references/ffmpeg_next.md";
    "references/ffmpeg_sys_next.md";
    "references/ffmpeg_sys_next/custom_io.md";
    "references/library_selection.md";
    "references/ez_ffmpeg/cli_migration.md";
    "references/quick_start.md";
    "references/ez_ffmpeg.md";
    "references/ffmpeg_next.md";
    "references/ffmpeg_sys_next.md";
    "references/installation.md" ].

(** [sorted(set(l))]: the distinct strings of [l] in code-point order. *)
Definition sorted_set (l : list string) : list string :=
  merge_sort String.le (elements (list_to_set l : gset string)).

Section Test.

Context {Path : Type} `{FileSystem Path}.

(** The loop of lines 44-48. *)
Definition missing_references (skill_root : Path) : list string :=
  filter (fun rel_path => exists_ (joinpath skill_root rel_path) = false)
         (sorted_set EXPECTED_REFERENCES).

(** [test_all_expected_references_exist], lines 42-50. *)
Definition test_all_expected_references_exist (skill_root : Path) : verdict :=
  let missing := missing_references skill_root in
  match missing with
  | [] => Passed
  | _ :: _ =>
      Failed ("Missing referenced files:" +:+ nl +:+ "  "
              +:+ String.concat (nl +:+ "  ") missing)
  end.

End Test.

End ReferencesExist.

(** ** The test of [tests/rust-ffmpeg/test_links.py] *)

Module LinksTest.

Import PyStr Links.

Section Test.

Context {Path : Type} `{FileSystem Path}.

(** [src.relative_to(root)] and the rendering of a path in an f-string. *)
Variable relative_to : Path -> Path -> Path.
Variable show : Path -> string.

(** One line of the failure message, line 59. *)
Definition broken_line (skill_root : Path) (b : Path * string * Path)
  : string :=
  let '(src, raw, resolved) := b in
  "  " +:+ show (relative_to src skill_root) +:+ ": " +:+ raw +:+ " -> "
  +:+ show resolved +:+ " (not found)".

(** [TestInternalLinks.test_no_broken_links], lines 52-60. *)
Definition test_no_broken_links (skill_root : Path) : verdict :=
  let broken := _find_broken_links skill_root in
  match broken with
  | [] => Passed
  | _ :: _ =>
      Failed ("Broken internal links:" +:+ nl
              +:+ String.concat nl (broken_line skill_root <$> broken))
  end.

End Test.

End LinksTest.

(** Is a pattern free of capturing groups? *)
Fixpoint group_free (r : Re.regex) : bool :=
  match r with
  | Re.Group _ _ => false
  | Re.Opt r' => group_free r'
  | Re.Seq r1 r2 => group_free r1 && group_free r2
  | _ => true
  end.

(** * Properties *)

(** ** The resolver *)

Section ResolverFacts.

Variable env : Env.

(** The second strategy: one call of [shutil.which], then a path or the
    error. *)
Lemma system_ffmpeg_fallback_run (t : trace) :
  system_ffmpeg_fallback env t =
    (if truthy (which env "ffmpeg") then Return (which env "ffmpeg")
     else Raise (Exc RuntimeError not_found_message),
     t ++ [which_call]).
Proof.
  unfold system_ffmpeg_fallback, shutil_which, bind, emit, ret, raise.
  now destruct (truthy (which env "ffmpeg")).
Qed.

(** The resolver by cases on the provider. *)
Lemma get_ffmpeg_path_run (t : trace) :
  get_ffmpeg_path env t =
    match imageio_ffmpeg env with
    | NotImportable e =>
        if isinstance e ImportError
        then system_ffmpeg_fallback env (t ++ [import_event])
        else (Raise e, t ++ [import_event])
    | Importable (Return v) =>
        if truthy v then (Return v, t ++ [import_event; provider_call])
        else system_ffmpeg_fallback env (t ++ [import_event; provider_call])
    | Importable (Raise e) =>
        if isinstance e ImportError
        then system_ffmpeg_fallback env (t ++ [import_event; provider_call])
        else (Raise e, t ++ [import_event; provider_call])
    end.
Proof.
  unfold get_ffmpeg_path, import_get_ffmpeg_exe, try_except, bind, emit, ret,
    raise.
  destruct (imageio_ffmpeg env) as [e | [v | e]]; cbn.
  - now destruct (isinstance e ImportError).
  - rewrite <- app_assoc. now destruct (truthy v).
  - rewrite <- app_assoc. now destruct (isinstance e ImportError).
Qed.

(** A provider that skips leaves the decision to the second strategy. *)
Lemma get_ffmpeg_path_skip (t : trace) :
  provider_skips env = true ->
  exists evs,
    get_ffmpeg_path env t = system_ffmpeg_fallback env (t ++ evs)
    /\ consulted_which evs = false.
Proof.
  unfold provider_skips. intros Hskip. rewrite get_ffmpeg_path_run.
  destruct (imageio_ffmpeg env) as [e | [v | e]].
  - rewrite Hskip. now exists [import_event].
  - apply negb_true_iff in Hskip. rewrite Hskip.
    now exists [import_event; provider_call].
  - rewrite Hskip. now exists [import_event; provider_call].
Qed.

(** An exception of the provider that is no [ImportError] is not a skip: it
    leaves [get_ffmpeg_path], and the OS path is not searched. *)
Lemma provider_error_propagates (e : exc) (t : trace) :
  imageio_ffmpeg env = Importable (Raise e) ->
  isinstance e ImportError = false ->
  get_ffmpeg_path env t = (Raise e, t ++ [import_event; provider_call]).
Proof.
  intros Hp He. rewrite get_ffmpeg_path_run, Hp. now rewrite He.
Qed.

(** [main] by cases on the resolver. *)
Lemma main_run (t : trace) :
  main env t =
    match get_ffmpeg_path env t with
    | (Return p, t') => (Return 0%Z, t' ++ [Write stdout (str p +:+ nl)])
    | (Raise e, t') =>
        if isinstance e RuntimeError
        then (Return 1%Z, t' ++ [Write stderr (exc_msg e +:+ nl)])
        else (Raise e, t')
    end.
Proof.
  unfold main, try_except, bind, print, emit, ret.
  destruct (get_ffmpeg_path env t) as [[p | e] t']; cbn; [easy |].
  now destruct (isinstance e RuntimeError).
Qed.

End ResolverFacts.

Lemma truthy_Str (s : string) : truthy (Str s) = true <-> s <> "".
Proof.
  cbn. rewrite negb_true_iff. split.
  - intros H ->. discriminate.
  - intros H. destruct (String.eqb_spec s ""); [contradiction | easy].
Qed.

Lemma truthy_inv (v : value) :
  truthy v = true -> exists s, v = Str s /\ s <> "".
Proof.
  destruct v as [| s]; [discriminate |]. intros H. exists s.
  split; [easy | now apply truthy_Str].
Qed.

(** C1: when [imageio_ffmpeg] is importable and [get_ffmpeg_exe] returns a
    non-empty path [p], [get_ffmpeg_path] returns exactly [p], whatever
    the OS search path holds, and its only events are the import and the
    call of the provider: [shutil.which] is not consulted. *)
Theorem provider_path_wins (env : Env) (p : string) (t : trace) :
  imageio_ffmpeg env = Importable (Return (Str p)) ->
  p <> "" ->
  get_ffmpeg_path env t = (Return (Str p), t ++ [import_event; provider_call])
  /\ consulted_which [import_event; provider_call] = false.
Proof.
  intros Hp Hne. split; [| reflexivity].
  rewrite get_ffmpeg_path_run, Hp.
  apply truthy_Str in Hne. now rewrite Hne.
Qed.

Lemma provider_path_wins_witness :
  get_ffmpeg_path scenario_1 [] =
    (Return (Str "/fake/path/ffmpeg"), [] ++ [import_event; provider_call])
  /\ consulted_which [import_event; provider_call] = false.
Proof.
  apply (provider_path_wins scenario_1 "/fake/path/ffmpeg" []).
  - reflexivity.
  - discriminate.
Defined.

(** C2: when importing [imageio_ffmpeg] raises an [ImportError] and the OS
    search path resolves [ffmpeg] to a path [q] (a non-empty string),
    [get_ffmpeg_path] returns exactly [q]. *)
Theorem system_path_when_provider_absent
    (env : Env) (e : exc) (q : string) (t : trace) :
  imageio_ffmpeg env = NotImportable e ->
  isinstance e ImportError = true ->
  which env "ffmpeg" = Str q ->
  q <> "" ->
  get_ffmpeg_path env t = (Return (Str q), t ++ [import_event; which_call]).
Proof.
  intros Hp He Hw Hne.
  rewrite get_ffmpeg_path_run, Hp, He, system_ffmpeg_fallback_run, Hw.
  apply truthy_Str in Hne. rewrite Hne. now rewrite <- app_assoc.
Qed.

Lemma system_path_when_provider_absent_witness :
  get_ffmpeg_path scenario_2 [] =
    (Return (Str "/usr/bin/ffmpeg"), [] ++ [import_event; which_call]).
Proof.
  apply (system_path_when_provider_absent
           scenario_2 not_installed "/usr/bin/ffmpeg" []).
  - reflexivity.
  - reflexivity.
  - reflexivity.
  - discriminate.
Defined.

(** C3: when neither strategy yields a path (the provider skips and
    [shutil.which] gives nothing truthy), [get_ffmpeg_path] returns nothing
    and raises a [RuntimeError] whose message contains the install hint
    [pip install imageio-ffmpeg], contains [ffmpeg] once lower-cased, and
    points to the download page of the upstream project. *)
Theorem not_found_raises (env : Env) (t : trace) :
  provider_skips env = true ->
  truthy (which env "ffmpeg") = false ->
  (exists t', get_ffmpeg_path env t
              = (Raise (Exc RuntimeError not_found_message), t'))
  /\ PyStr.contains "pip install imageio-ffmpeg" not_found_message = true
  /\ PyStr.contains "ffmpeg" (PyStr.lower not_found_message) = true
  /\ PyStr.contains "https://ffmpeg.org/download.html" not_found_message
     = true.
Proof.
  intros Hskip Hw. split; [| now vm_compute].
  destruct (get_ffmpeg_path_skip env t Hskip) as (evs & -> & _).
  rewrite system_ffmpeg_fallback_run, Hw. eauto.
Qed.

Lemma not_found_raises_witness :
  (exists t', get_ffmpeg_path scenario_3 []
              = (Raise (Exc RuntimeError not_found_message), t'))
  /\ PyStr.contains "pip install imageio-ffmpeg" not_found_message = true
  /\ PyStr.contains "ffmpeg" (PyStr.lower not_found_message) = true
  /\ PyStr.contains "https://ffmpeg.org/download.html" not_found_message
     = true.
Proof.
  apply (not_found_raises scenario_3 []).
  - reflexivity.
  - reflexivity.
Defined.

(** C4: a first strategy that signals that it is unavailable (an
    [ImportError] from the import or from the call) or that returns a falsy
    path is skipped, not fatal: in each of these cases [get_ffmpeg_path]
    goes on with the search on the OS path, and its result is the result of
    that search alone, so that the cases cannot be told apart. *)
Theorem unavailable_provider_is_skipped (env : Env) (t : trace) :
  provider_skips env = true ->
  (exists evs,
      get_ffmpeg_path env t = system_ffmpeg_fallback env (t ++ evs)
      /\ consulted_which evs = false)
  /\ fst (get_ffmpeg_path env t) = fst (system_ffmpeg_fallback env [])
  /\ consulted_which (snd (get_ffmpeg_path env [])) = true.
Proof.
  intros Hskip.
  destruct (get_ffmpeg_path_skip env t Hskip) as (evs & Heq & Hno).
  split; [now exists evs |]. split.
  - rewrite Heq. now rewrite !system_ffmpeg_fallback_run.
  - destruct (get_ffmpeg_path_skip env [] Hskip) as (evs' & -> & _).
    rewrite system_ffmpeg_fallback_run. cbn [snd]. unfold consulted_which.
    rewrite existsb_app. cbn. apply orb_true_r.
Qed.

Lemma unavailable_provider_is_skipped_witness :
  (exists evs,
      get_ffmpeg_path scenario_2 []
      = system_ffmpeg_fallback scenario_2 ([] ++ evs)
      /\ consulted_which evs = false)
  /\ fst (get_ffmpeg_path scenario_2 [])
     = fst (system_ffmpeg_fallback scenario_2 [])
  /\ consulted_which (snd (get_ffmpeg_path scenario_2 [])) = true.
Proof.
  apply (unavailable_provider_is_skipped scenario_2 []). reflexivity.
Defined.

(** The two kinds of skip agree: a provider that is not installed and one
    that returns a falsy path give the same result over the same OS path. *)
Lemma skip_cases_agree (env1 env2 : Env) (t1 t2 : trace) :
  provider_skips env1 = true ->
  provider_skips env2 = true ->
  which env1 "ffmpeg" = which env2 "ffmpeg" ->
  fst (get_ffmpeg_path env1 t1) = fst (get_ffmpeg_path env2 t2).
Proof.
  intros H1 H2 Hw.
  destruct (get_ffmpeg_path_skip env1 t1 H1) as (evs1 & -> & _).
  destruct (get_ffmpeg_path_skip env2 t2 H2) as (evs2 & -> & _).
  rewrite !system_ffmpeg_fallback_run. cbn [fst]. now rewrite Hw.
Qed.

(** The resolver itself writes to no stream. *)
Lemma get_ffmpeg_path_silent (env : Env) (f : stream) (t : trace) :
  written f (snd (get_ffmpeg_path env t)) = written f t.
Proof.
  rewrite get_ffmpeg_path_run.
  destruct (imageio_ffmpeg env) as [e | [v | e]];
    repeat match goal with
           | |- context [if ?b then _ else _] => destruct b
           end;
    rewrite ?system_ffmpeg_fallback_run; cbn [snd]; unfold written;
    rewrite ?omap_app; cbn; now rewrite ?app_nil_r.
Qed.

Lemma written_snoc (f : stream) (t : trace) (ev : event) :
  written f (t ++ [ev]) = written f t ++ written f [ev].
Proof. apply omap_app. Qed.

(** C5: [main] writes the resolved path and a line feed to standard output
    and returns 0 exactly when [get_ffmpeg_path] returns a path; when
    [get_ffmpeg_path] raises its [RuntimeError], [main] writes the message
    to standard error, writes nothing to standard output and returns 1; and
    when no strategy yields a path, the text on standard error is the
    remediation message.  A failure never becomes exit code 0. *)
Theorem main_exit_code (env : Env) :
  (forall p t',
      get_ffmpeg_path env [] = (Return p, t') ->
      main env [] = (Return 0%Z, t' ++ [Write stdout (str p +:+ nl)])
      /\ written stdout (snd (main env [])) = [str p +:+ nl]
      /\ written stderr (snd (main env [])) = [])
  /\ (forall msg t',
      get_ffmpeg_path env [] = (Raise (Exc RuntimeError msg), t') ->
      main env [] = (Return 1%Z, t' ++ [Write stderr (msg +:+ nl)])
      /\ written stdout (snd (main env [])) = []
      /\ written stderr (snd (main env [])) = [msg +:+ nl])
  /\ (fst (main env []) = Return 0%Z
      <-> exists p, fst (get_ffmpeg_path env []) = Return p)
  /\ (provider_skips env = true ->
      truthy (which env "ffmpeg") = false ->
      fst (main env []) = Return 1%Z
      /\ written stdout (snd (main env [])) = []
      /\ written stderr (snd (main env [])) = [not_found_message +:+ nl]).
Proof.
  pose proof (get_ffmpeg_path_silent env stdout []) as Hout.
  pose proof (get_ffmpeg_path_silent env stderr []) as Herr.
  assert (Hfail : forall msg t',
             get_ffmpeg_path env [] = (Raise (Exc RuntimeError msg), t') ->
             main env [] = (Return 1%Z, t' ++ [Write stderr (msg +:+ nl)])
             /\ written stdout (snd (main env [])) = []
             /\ written stderr (snd (main env [])) = [msg +:+ nl]).
  { intros msg t' Hget. rewrite main_run, Hget. rewrite Hget in Hout, Herr.
    cbn [snd] in *. cbn [isinstance issubclass exc_cls exc_class_eqb exc_msg].
    cbn [snd]. rewrite !written_snoc, Hout, Herr. easy. }
  split; [| split; [exact Hfail | split]].
  - intros p t' Hget. rewrite main_run, Hget. rewrite Hget in Hout, Herr.
    cbn [snd] in *. rewrite !written_snoc, Hout, Herr. easy.
  - rewrite main_run. destruct (get_ffmpeg_path env []) as [[p | e] t'].
    + split; [intros _; now exists p | easy].
    + split; [| intros [p Hp]; discriminate].
      destruct (isinstance e RuntimeError); discriminate.
  - intros Hskip Hw.
    destruct (get_ffmpeg_path_skip env [] Hskip) as (evs & Hget & _).
    rewrite system_ffmpeg_fallback_run, Hw in Hget.
    destruct (Hfail _ _ Hget) as (Hmain & Ho & He).
    rewrite Hmain in *. easy.
Qed.

Lemma main_exit_code_witness :
  fst (main scenario_3 []) = Return 1%Z
  /\ written stdout (snd (main scenario_3 [])) = []
  /\ written stderr (snd (main scenario_3 [])) = [not_found_message +:+ nl].
Proof.
  apply (main_exit_code scenario_3).
  - reflexivity.
  - reflexivity.
Defined.

(** C6: whenever [get_ffmpeg_path] returns, the value is a string and it is
    not empty. *)
Theorem returned_path_nonempty (env : Env) (t t' : trace) (v : value) :
  get_ffmpeg_path env t = (Return v, t') ->
  exists s, v = Str s /\ s <> "".
Proof.
  rewrite get_ffmpeg_path_run.
  destruct (imageio_ffmpeg env) as [e | [v' | e]];
    repeat match goal with
           | |- context [if ?b then _ else _] => destruct b eqn:?
           end;
    rewrite ?system_ffmpeg_fallback_run;
    repeat match goal with
           | |- context [if ?b then _ else _] => destruct b eqn:?
           end;
    intros [= <- _]; now apply truthy_inv.
Qed.

Lemma returned_path_nonempty_witness :
  exists s, Str "/usr/bin/ffmpeg" = Str s /\ s <> "".
Proof.
  apply (returned_path_nonempty scenario_2 [] [import_event; which_call]).
  reflexivity.
Defined.


(** *** The resolver in the process *)





(** ** The frontmatter checks *)

Lemma assert_passes (cond : bool) (msg : string) :
  passes (assert_ cond msg) = cond.
Proof. now destruct cond. Qed.

Lemma and_then_passes (cond : bool) (msg : string) (k : outcome unit) :
  passes (and_then (assert_ cond msg) (fun _ => k)) = cond && passes k.
Proof. now destruct cond. Qed.

(** The media-assistant suite accepts a description exactly when it has
    between 1 and 1024 characters. *)
Lemma check_description_passes (desc : string) :
  passes (MediaAssistant.check_description desc) = true
  <-> (0 < PyStr.len desc <= 1024)%nat.
Proof.
  unfold MediaAssistant.check_description.
  rewrite and_then_passes, assert_passes, andb_true_iff.
  rewrite Nat.ltb_lt, Nat.leb_le. reflexivity.
Qed.

(** The rust-ffmpeg suite accepts a description string exactly when it has
    fewer than 4096 characters. *)
Lemma rust_description_passes (fm : gmap string RustFfmpeg.yaml)
    (desc : string) :
  fm !! "description" = Some (RustFfmpeg.YStr desc) ->
  passes (RustFfmpeg.test_description_length_reasonable fm) = true
  <-> (PyStr.len desc < 4096)%nat.
Proof.
  intros Hd. unfold RustFfmpeg.test_description_length_reasonable.
  rewrite Hd. unfold default, RustFfmpeg.py_len, and_then, id.
  rewrite assert_passes. apply Nat.ltb_lt.
Qed.

(** C10: the two suites enforce different maximum lengths of the
    description.  The media-assistant check accepts a description exactly
    when it has between 1 and 1024 characters, and the whole test passes
    exactly when the pattern finds a [description] field whose value has
    between 1 and 1024 characters: 1024 is accepted, 1025 is not.  The
    rust-ffmpeg test accepts a description string exactly when it has
    fewer than 4096 characters: 4095 is accepted, 4096 is not.  So every
    description of more than 1024 and fewer than 4096 characters passes
    the second and fails the first. *)
Theorem description_length_limits :
  (forall desc : string,
      passes (MediaAssistant.check_description desc) = true
      <-> (0 < PyStr.len desc <= 1024)%nat)
  /\ (forall content : string,
      passes (MediaAssistant.test_skill_description_non_empty content) = true
      <-> exists m,
            Re.search true MediaAssistant.DESCRIPTION_FIELD content = Some m
            /\ (0 < PyStr.len (MediaAssistant.field_value m) <= 1024)%nat)
  /\ (forall (fm : gmap string RustFfmpeg.yaml) (desc : string),
      fm !! "description" = Some (RustFfmpeg.YStr desc) ->
      (passes (RustFfmpeg.test_description_length_reasonable fm) = true
       <-> (PyStr.len desc < 4096)%nat))
  /\ (forall (fm : gmap string RustFfmpeg.yaml) (desc : string),
      fm !! "description" = Some (RustFfmpeg.YStr desc) ->
      (1024 < PyStr.len desc < 4096)%nat ->
      passes (RustFfmpeg.test_description_length_reasonable fm) = true
      /\ passes (MediaAssistant.check_description desc) = false).
Proof.
  split; [| split; [| split]].
  - intros desc. apply check_description_passes.
  - intros content. unfold MediaAssistant.test_skill_description_non_empty.
    destruct (Re.search _ _ _) as [m |].
    + rewrite check_description_passes. split.
      * intros Hlen. now exists m.
      * now intros (m' & [= <-] & Hlen).
    + split; [discriminate | intros (m' & [=] & _)].
  - intros fm desc Hd. apply (rust_description_passes fm desc Hd).
  - intros fm desc Hd Hlen. split.
    + apply (rust_description_passes fm desc Hd). lia.
    + apply not_true_is_false. intros Hpass.
      apply check_description_passes in Hpass. lia.
Qed.

Lemma description_length_limits_witness :
  passes (RustFfmpeg.test_description_length_reasonable
            RustFfmpeg.long_frontmatter) = true
  /\ passes (MediaAssistant.check_description RustFfmpeg.long_description)
     = false.
Proof.
  destruct description_length_limits as (_ & _ & _ & Hbetween).
  apply (Hbetween RustFfmpeg.long_frontmatter RustFfmpeg.long_description).
  - reflexivity.
  - vm_compute. lia.
Defined.

(** ** The link checker *)

Section CheckerFacts.

Import PyStr Re Links.

Context {Path : Type} `{FileSystem Path}.

(** What the loop keeps of the matches: the stripped second group when it
    is not empty and names no external scheme, with its resolution. *)
Lemma links_of_matches_spec (matches : list match_obj) (base_dir : Path)
    (raw_path : string) (resolved : Path) :
  (raw_path, resolved) ∈ links_of_matches matches base_dir <->
  exists m,
    m ∈ matches
    /\ raw_path = strip (default "" (group m 2))
    /\ raw_path <> ""
    /\ existsb (startswith raw_path) external_prefixes = false
    /\ resolved = resolve (joinpath base_dir raw_path).
Proof.
  induction matches as [| m rest IH]; cbn [links_of_matches].
  - split; [intros Hin; inversion Hin | intros (m & Hin & _); inversion Hin].
  - set (raw := strip (default "" (group m 2))).
    assert (Hhead :
      (raw_path = raw /\ raw_path <> ""
       /\ existsb (startswith raw_path) external_prefixes = false
       /\ resolved = resolve (joinpath base_dir raw_path))
      \/ (raw_path, resolved) ∈ links_of_matches rest base_dir
      <-> exists m',
            m' ∈ m :: rest
            /\ raw_path = strip (default "" (group m' 2))
            /\ raw_path <> ""
            /\ existsb (startswith raw_path) external_prefixes = false
            /\ resolved = resolve (joinpath base_dir raw_path)).
    { rewrite IH. split.
      - intros [Hm | (m' & Hin & Hrest)].
        + exists m. split; [left | exact Hm].
        + exists m'. split; [now right | exact Hrest].
      - intros (m' & Hin & Hrest). apply elem_of_cons in Hin as [-> | Hin].
        + now left.
        + right. now exists m'. }
    rewrite <- Hhead. clear Hhead IH.
    destruct (String.eqb_spec raw "") as [Hempty | Hfull].
    { split; [tauto |]. intros [(-> & Hne & _) | Hin]; [easy | exact Hin]. }
    destruct (existsb (startswith raw) external_prefixes) eqn:Hext.
    { split; [tauto |].
      intros [(-> & _ & Hno & _) | Hin]; [congruence | exact Hin]. }
    rewrite elem_of_cons. split.
    + intros [[= -> ->] | Hin]; [left | now right]. easy.
    + intros [(-> & _ & _ & ->) | Hin]; [now left | now right].
Qed.

(** What [_find_broken_links] reports: the kept links of the collected
    files whose resolution does not exist. *)
Lemma find_broken_links_spec (skill_root md_file : Path) (raw_path : string)
    (resolved : Path) :
  (md_file, raw_path, resolved) ∈ _find_broken_links skill_root <->
  md_file ∈ _collect_all_md_files skill_root
  /\ (exists m,
        m ∈ finditer false LINK_PATTERN (read_text md_file)
        /\ raw_path = strip (default "" (group m 2))
        /\ raw_path <> ""
        /\ existsb (startswith raw_path) external_prefixes = false
        /\ resolved = resolve (joinpath (parent md_file) raw_path))
  /\ exists_ resolved = false.
Proof.
  unfold _find_broken_links. rewrite list_elem_of_In, in_flat_map.
  setoid_rewrite <- list_elem_of_In. unfold broken_in.
  setoid_rewrite list_elem_of_omap.
  rewrite <- links_of_matches_spec. fold (_extract_internal_links
    (read_text md_file) (parent md_file)).
  split.
  - intros (f & Hf & [raw res] & Hin & Hsome).
    destruct (exists_ res) eqn:Hex; [discriminate |].
    injection Hsome as -> -> ->. easy.
  - intros (Hf & Hin & Hex). exists md_file. split; [easy |].
    exists (raw_path, resolved). split; [easy |]. now rewrite Hex.
Qed.

End CheckerFacts.

(** C9: a relative link that follows a link with an anchor on the same line
    is not seen.  [SKILL.md] holds the link
    [[Quick start](references/quick_start.md)], its target is not empty and
    names no external scheme, and the file it resolves to does not exist;
    yet [_find_broken_links] reports nothing, because the match of
    [LINK_PATTERN] for the link before it runs through the [.*] after the
    hash to the last closing parenthesis of the line.  With the two links
    in the other order the broken one is reported. *)
Theorem link_after_anchor_is_missed :
  let fs := Links.mem_fs Links.skill_two_links in
  let fs' := Links.mem_fs Links.skill_two_links_swapped in
  let root := "/repo/skills/rust-ffmpeg" in
  let skill_md := "/repo/skills/rust-ffmpeg/SKILL.md" in
  let target := "/repo/skills/rust-ffmpeg/references/quick_start.md" in
  @Links._collect_all_md_files _ fs root
    = [skill_md; "/repo/skills/rust-ffmpeg/references/installation.md"]
  /\ PyStr.contains "[Quick start](references/quick_start.md)"
       (@Links.read_text _ fs skill_md) = true
  /\ @Links.resolve _ fs
       (@Links.joinpath _ fs (@Links.parent _ fs skill_md)
          "references/quick_start.md") = target
  /\ @Links.exists_ _ fs target = false
  /\ @Links._find_broken_links _ fs root = []
  /\ @Links._find_broken_links _ fs' root
     = [(skill_md, "references/quick_start.md", target)].
Proof. vm_compute. repeat split. Qed.

(** ** The name format *)

Section NameFormat.

Import PyStr Re MediaAssistant.

Lemma chars_of_chars (s : string) : of_chars (chars s) = s.
Proof. apply String.string_of_list_ascii_of_string. Qed.

Lemma chars_nil (s : string) : chars s = [] <-> s = "".
Proof. destruct s; cbn; split; easy. Qed.

(** The characters of the class are their own lower case. *)
Lemma lower_char_name_char (c : ascii) :
  name_char c = true -> lower_char c = c.
Proof.
  destruct c as [[] [] [] [] [] [] [] []]; vm_compute; congruence.
Qed.

Lemma lower_name_chars (name : string) :
  forallb name_char (chars name) = true -> lower name = name.
Proof.
  intros Hall. unfold lower. rewrite <- (chars_of_chars name) at 2. f_equal.
  induction (chars name) as [| c l IH]; [easy |].
  cbn in Hall. apply andb_true_iff in Hall as [Hc Hl].
  cbn. now rewrite lower_char_name_char, IH.
Qed.

(** A character that is no line feed does not end the text for [$]. *)
Lemma at_eol_cons (c : ascii) (l : list ascii) :
  dot c = true -> at_eol false (c :: l) = false.
Proof.
  unfold dot. intros Hc. apply negb_true_iff in Hc. cbn.
  destruct l; [exact Hc | reflexivity].
Qed.

(** On a text without line feed, a greedy class repetition followed by [$]
    succeeds exactly when the class covers the whole text. *)
Lemma star_then_eol {R : Type} (p : ascii -> bool) (F : list ascii -> R)
    (after before : list ascii) :
  forallb dot after = true ->
  is_Some (star p before after
             (fun b a => if at_eol false a then Some (F b) else None))
  <-> forallb p after = true.
Proof.
  revert before. induction after as [| c l IH]; intros before Hline.
  - cbn. split; [easy | intros _; eauto].
  - cbn in Hline. apply andb_true_iff in Hline as [Hc Hl].
    cbn [star forallb]. destruct (p c) eqn:Hp.
    + rewrite andb_true_l, <- (IH (c :: before) Hl).
      destruct (star p (c :: before) l _) as [res |]; [easy |].
      rewrite (at_eol_cons c l Hc). easy.
    + rewrite (at_eol_cons c l Hc), andb_false_l.
      split; [intros [? [=]] | discriminate].
Qed.

(** [re.match] with [NAME_CHARS] on a value without line feed. *)
Lemma match_NAME_CHARS (name : string) :
  single_line name = true ->
  is_Some (match_ false NAME_CHARS name)
  <-> name <> "" /\ forallb name_char (chars name) = true.
Proof.
  unfold single_line, match_, match_at, NAME_CHARS. rewrite <- chars_nil.
  cbn [go at_bol]. destruct (chars name) as [| c l]; intros Hline.
  - split; [intros [? [=]] | intros [[] _]; reflexivity].
  - cbn in Hline. apply andb_true_iff in Hline as [_ Hl].
    cbn [forallb]. destruct (name_char c).
    + rewrite (star_then_eol name_char
                 (fun b => {| m_start := 0; m_end := length b;
                              m_groups := ∅ |}) l [c] Hl).
      split; [intros Hall; split; [discriminate | exact Hall] | now intros []].
    + split; [intros [? [=]] | intros [_ [=]]].
Qed.

(** The five assertions of [check_name_format], as one condition. *)
Lemma check_name_format_passes (name : string) :
  passes (check_name_format name)
  = String.eqb name (lower name)
    && (negb (contains "--" name)
    && (negb (startswith name "-")
    && (negb (endswith name "-")
    && bool_decide (is_Some (match_ false NAME_CHARS name))))).
Proof.
  unfold check_name_format.
  now rewrite !and_then_passes, assert_passes.
Qed.

(** *** The values that the field pattern captures *)

(** A successful repetition hands a run of class characters over. *)
Lemma star_inv {R : Type} (p : ascii -> bool) (after before : list ascii)
    (k : list ascii -> list ascii -> option R) (res : R) :
  star p before after k = Some res ->
  exists w rest,
    after = w ++ rest /\ forallb p w = true
    /\ k (rev w ++ before) rest = Some res.
Proof.
  revert before. induction after as [| c l IH]; intros before; cbn [star].
  - intros Hk. now exists [], [].
  - destruct (p c) eqn:Hp.
    + destruct (star p (c :: before) l k) as [res' |] eqn:Hstar.
      * intros [= ->]. destruct (IH _ Hstar) as (w & rest & -> & Hw & Hk).
        exists (c :: w), rest. cbn. rewrite Hp, Hw, <- app_assoc. easy.
      * intros Hk. now exists [], (c :: l).
    + intros Hk. now exists [], (c :: l).
Qed.

(** Every result of the matcher is a result of its continuation. *)
Lemma go_inv {R : Type} (ml : bool) (r : regex) :
  forall (before after : list ascii) (g : gmap nat string)
         (k : list ascii -> list ascii -> gmap nat string -> option R)
         (res : R),
    go ml r before after g k = Some res ->
    exists b a g', k b a g' = Some res.
Proof.
  induction r as [c | p | p | p | r IH | n r IH | r1 IH1 r2 IH2 | |];
    intros before after g k res; cbn [go].
  - destruct after as [| x l]; [discriminate |].
    destruct (Ascii.eqb x c); [eauto | discriminate].
  - destruct after as [| x l]; [discriminate |].
    destruct (p x); [eauto | discriminate].
  - intros Hs. apply star_inv in Hs as (w & rest & _ & _ & Hk). eauto.
  - destruct after as [| x l]; [discriminate |].
    destruct (p x); [| discriminate].
    intros Hs. apply star_inv in Hs as (w & rest & _ & _ & Hk). eauto.
  - destruct (go ml r before after g k) as [res' |] eqn:Hgo; [| eauto].
    intros [= ->]. eauto.
  - intros Hgo. apply IH in Hgo as (b & a & g' & Hk). eauto.
  - intros Hgo. apply IH1 in Hgo as (b & a & g' & Hk). eauto.
  - destruct (at_bol ml before); [eauto | discriminate].
  - destruct (at_eol ml after); [eauto | discriminate].
Qed.

Lemma go_lit_inv {R : Type} (ml : bool) (l : list ascii) (rest : regex) :
  forall (before after : list ascii) (g : gmap nat string)
         (k : list ascii -> list ascii -> gmap nat string -> option R)
         (res : R),
    go ml (lit l rest) before after g k = Some res ->
    exists b a, go ml rest b a g k = Some res.
Proof.
  induction l as [| c l IH]; intros before after g k res; cbn [lit go].
  - eauto.
  - destruct after as [| x a]; [discriminate |].
    destruct (Ascii.eqb x c); [apply IH | discriminate].
Qed.

(** The text between a position and a later one. *)
Lemma span_app (before w : list ascii) :
  span before (rev w ++ before) = of_chars w.
Proof.
  unfold span. rewrite length_app, Nat.add_sub, take_app_length.
  now rewrite rev_involutive.
Qed.

(** Group 1 of a field pattern holds characters that [.] matches. *)
Lemma field_group_single_line (key : string) (before after : list ascii)
    (m : match_obj) :
  match_at true
    (Seq Bol (lit (chars key)
       (Seq (Star isspace) (Seq (Group 1 (Plus dot)) Eol))))
    before after = Some m ->
  exists s, group m 1 = Some s /\ single_line s = true.
Proof.
  unfold match_at. cbn [go]. destruct (at_bol true before); [| discriminate].
  intros Hgo. apply go_lit_inv in Hgo as (b & a & Hgo). cbn [go] in Hgo.
  apply star_inv in Hgo as (ws & a1 & _ & _ & Hgo).
  destruct a1 as [| x a1]; [discriminate |].
  destruct (dot x) eqn:Hx; [| discriminate].
  apply star_inv in Hgo as (w & a2 & _ & Hw & Hgo).
  destruct (at_eol true a2); [| discriminate].
  injection Hgo as <-. unfold group. cbn [m_groups].
  rewrite lookup_insert_eq. eexists. split; [reflexivity |].
  change (rev w ++ x :: rev ws ++ b) with (rev w ++ [x] ++ rev ws ++ b).
  rewrite app_assoc. change (rev w ++ [x]) with (rev (x :: w)).
  rewrite span_app. unfold single_line, chars, of_chars.
  rewrite String.list_ascii_of_string_of_list_ascii. cbn. now rewrite Hx.
Qed.

Lemma search_from_inv (ml : bool) (r : regex) (after before : list ascii)
    (m : match_obj) :
  search_from ml r before after = Some m ->
  exists b a, match_at ml r b a = Some m.
Proof.
  revert before. induction after as [| c l IH]; intros before;
    cbn [search_from];
    destruct (match_at ml r before _) as [m' |] eqn:Hm.
  - intros [= ->]. eauto.
  - discriminate.
  - intros [= ->]. eauto.
  - apply IH.
Qed.

(** Stripping keeps a single line single. *)
Lemma forallb_drop_while (q p : ascii -> bool) (l : list ascii) :
  forallb q l = true -> forallb q (drop_while p l) = true.
Proof.
  induction l as [| c l IH]; [easy |]. cbn [drop_while].
  destruct (p c); [| easy]. cbn. intros [_ Hl]%andb_true_iff. now apply IH.
Qed.

Lemma forallb_rev (q : ascii -> bool) (l : list ascii) :
  forallb q (rev l) = forallb q l.
Proof.
  induction l as [| c l IH]; [easy |].
  cbn. rewrite forallb_app, IH. cbn. rewrite andb_true_r. apply andb_comm.
Qed.

Lemma strip_by_single_line (p : ascii -> bool) (s : string) :
  single_line s = true -> single_line (strip_by p s) = true.
Proof.
  unfold single_line, strip_by, chars, of_chars.
  rewrite String.list_ascii_of_string_of_list_ascii. intros Hs.
  rewrite forallb_rev. apply forallb_drop_while.
  rewrite forallb_rev. now apply forallb_drop_while.
Qed.

(** The value that [test_skill_name_format] checks has no line feed. *)
Lemma extracted_name_single_line (content : string) (m : match_obj) :
  search true NAME_FIELD content = Some m ->
  single_line (field_value m) = true.
Proof.
  unfold search. intros Hs. apply search_from_inv in Hs as (b & a & Hm).
  apply (field_group_single_line "name:") in Hm as (s & Hg & Hline).
  unfold field_value, strip_chars, strip. rewrite Hg. cbn [default].
  now do 2 apply strip_by_single_line.
Qed.

(** The whole test on the text of [SKILL.md]: it passes exactly when the
    pattern finds a [name] field and the stripped value is lower-case, made
    of a-z, 0-9 and hyphens, not empty, without two hyphens in a row and
    without a hyphen at either end. *)
Lemma test_skill_name_format_passes (content : string) :
  passes (test_skill_name_format content) = true
  <-> exists m,
        search true NAME_FIELD content = Some m
        /\ spec_name_format (field_value m) = true
        /\ startswith (field_value m) "-" = false
        /\ endswith (field_value m) "-" = false.
Proof.
  unfold test_skill_name_format.
  destruct (search true NAME_FIELD content) as [m |] eqn:Hs.
  - pose proof (extracted_name_single_line content m Hs) as Hline.
    assert (Hbody :
      passes (check_name_format (field_value m)) = true
      <-> spec_name_format (field_value m) = true
          /\ startswith (field_value m) "-" = false
          /\ endswith (field_value m) "-" = false).
    { rewrite check_name_format_passes.
      unfold spec_name_format, is_lowercase, is_hyphenated,
        no_consecutive_hyphens.
      rewrite !andb_true_iff, !negb_true_iff, bool_decide_eq_true.
      rewrite (match_NAME_CHARS _ Hline), String.eqb_neq. tauto. }
    rewrite Hbody. split.
    + intros H. now exists m.
    + now intros (m' & [= <-] & H).
  - split; [discriminate | intros (m' & [=] & _)].
Qed.

End NameFormat.

(** C8, as the claim states it, fails: the value [-a] is lower-case, made
    of letters and hyphens, and has no two hyphens in a row, and the check
    rejects it at its third assertion; so does [a-] at the fourth. *)
Lemma name_format_leading_hyphen_rejected :
  MediaAssistant.spec_name_format "-a" = true
  /\ MediaAssistant.check_name_format "-a"
     = Raise (Exc AssertionError "Name must not start with hyphen")
  /\ MediaAssistant.spec_name_format "a-" = true
  /\ MediaAssistant.check_name_format "a-"
     = Raise (Exc AssertionError "Name must not end with hyphen").
Proof. vm_compute. repeat split. Qed.

(** C8, amended: the check accepts a name value (a value without line feed,
    as the field pattern captures it) exactly when it is lower-case, is
    made of the characters a-z, 0-9 and hyphen and is not empty, has no two
    hyphens in a row, and neither starts nor ends with a hyphen. *)
Theorem name_format_accepts_iff (name : string) :
  MediaAssistant.single_line name = true ->
  passes (MediaAssistant.check_name_format name) = true
  <-> MediaAssistant.spec_name_format name = true
      /\ PyStr.startswith name "-" = false
      /\ PyStr.endswith name "-" = false.
Proof.
  intros Hline. rewrite check_name_format_passes.
  unfold MediaAssistant.spec_name_format, MediaAssistant.is_lowercase,
    MediaAssistant.is_hyphenated, MediaAssistant.no_consecutive_hyphens.
  rewrite !andb_true_iff, !negb_true_iff, bool_decide_eq_true.
  rewrite (match_NAME_CHARS name Hline), String.eqb_neq.
  tauto.
Qed.

Lemma name_format_accepts_iff_witness :
  passes (MediaAssistant.check_name_format "media-assistant") = true
  <-> MediaAssistant.spec_name_format "media-assistant" = true
      /\ PyStr.startswith "media-assistant" "-" = false
      /\ PyStr.endswith "media-assistant" "-" = false.
Proof.
  apply (name_format_accepts_iff "media-assistant"). reflexivity.
Defined.

(** * Further properties *)

(** ** The resolver and [main] *)

(** An exception of the provider that is no [ImportError], raised by the
    import or by the call, leaves [get_ffmpeg_path] unchanged, and the OS
    path is not searched. *)
Theorem foreign_exception_propagates (env : Env) (e : exc) (t : trace) :
  imageio_ffmpeg env = NotImportable e
  \/ imageio_ffmpeg env = Importable (Raise e) ->
  isinstance e ImportError = false ->
  fst (get_ffmpeg_path env t) = Raise e
  /\ which_calls (snd (get_ffmpeg_path env [])) = [].
Proof.
  intros [Hp | Hp] He; rewrite !get_ffmpeg_path_run, Hp, He; easy.
Qed.

Lemma foreign_exception_propagates_witness :
  fst (get_ffmpeg_path scenario_broken_provider [])
  = Raise (Exc OSError "exec format error")
  /\ which_calls (snd (get_ffmpeg_path scenario_broken_provider [])) = [].
Proof.
  apply (foreign_exception_propagates scenario_broken_provider).
  - right. reflexivity.
  - reflexivity.
Defined.

(** [shutil.which] is called exactly when the first strategy skips, then
    once, with the name [ffmpeg]. *)
Theorem which_called_iff_provider_skips (env : Env) :
  which_calls (snd (get_ffmpeg_path env []))
  = if provider_skips env then [which_call] else [].
Proof.
  rewrite get_ffmpeg_path_run. unfold provider_skips.
  destruct (imageio_ffmpeg env) as [e | [v | e]];
    try destruct (isinstance e ImportError);
    try destruct (truthy v);
    rewrite ?system_ffmpeg_fallback_run; reflexivity.
Qed.

(** [get_ffmpeg_path] returns [v] exactly when [v] is truthy and is either
    what the provider returned or, the provider skipping, what
    [shutil.which] found. *)
Theorem get_ffmpeg_path_returns_iff (env : Env) (v : value) (t : trace) :
  fst (get_ffmpeg_path env t) = Return v
  <-> truthy v = true
      /\ (imageio_ffmpeg env = Importable (Return v)
          \/ (provider_skips env = true /\ which env "ffmpeg" = v)).
Proof.
  rewrite get_ffmpeg_path_run. unfold provider_skips.
  destruct (imageio_ffmpeg env) as [e | [v' | e]];
    try destruct (isinstance e ImportError) eqn:He;
    try destruct (truthy v') eqn:Hv';
    rewrite ?system_ffmpeg_fallback_run; cbn [fst negb];
    try destruct (truthy (which env "ffmpeg")) eqn:Hw;
    split;
    try (intros [= <-]); try (intros [Hv [[=] | [[=] Hwv]]]);
    subst; try congruence; auto.
Qed.

(** [get_ffmpeg_path] raises [e] exactly when [e] is an exception of the
    provider that is no [ImportError], or when both strategies yield
    nothing and [e] is the not-found error. *)
Theorem get_ffmpeg_path_raises_iff (env : Env) (e : exc) (t : trace) :
  fst (get_ffmpeg_path env t) = Raise e
  <-> (isinstance e ImportError = false
       /\ (imageio_ffmpeg env = NotImportable e
           \/ imageio_ffmpeg env = Importable (Raise e)))
      \/ (provider_skips env = true
          /\ truthy (which env "ffmpeg") = false
          /\ e = Exc RuntimeError not_found_message).
Proof.
  rewrite get_ffmpeg_path_run. unfold provider_skips.
  destruct (imageio_ffmpeg env) as [e' | [v' | e']];
    try destruct (isinstance e' ImportError) eqn:He;
    try destruct (truthy v') eqn:Hv';
    rewrite ?system_ffmpeg_fallback_run; cbn [fst negb];
    try destruct (truthy (which env "ffmpeg")) eqn:Hw;
    split;
    try (intros [= <-]);
    try (intros [[Hne [[=] | [=]]] | (Hs & Hf & ->)]);
    subst; try congruence; auto.
Qed.

(** The events of a call do not depend on the trace before it: they start
    with the import, are at most three, and contain no write to a stream. *)
Theorem get_ffmpeg_path_events (env : Env) :
  exists evs : trace,
    (forall t, snd (get_ffmpeg_path env t) = t ++ evs)
    /\ head evs = Some import_event
    /\ (length evs <= 3)%nat
    /\ written stdout evs = [] /\ written stderr evs = [].
Proof.
  destruct (truthy (which env "ffmpeg")) eqn:Hw;
    destruct (imageio_ffmpeg env) as [e | [v | e]] eqn:Hp;
    try destruct (isinstance e ImportError) eqn:He;
    try destruct (truthy v) eqn:Hv;
    eexists; (split;
      [ intros t;
        rewrite get_ffmpeg_path_run, Hp, ?He, ?Hv,
          ?system_ffmpeg_fallback_run, ?Hw, <- ?app_assoc; reflexivity
      | cbn; repeat split; lia ]).
Qed.

(** [main] lets through exactly the exceptions of the resolver that are no
    [RuntimeError]: it raises [e] if and only if [get_ffmpeg_path] raises
    [e] and [e] is no [RuntimeError]. *)
Theorem main_raises_iff (env : Env) (e : exc) :
  fst (main env []) = Raise e
  <-> fst (get_ffmpeg_path env []) = Raise e
      /\ isinstance e RuntimeError = false.
Proof.
  rewrite main_run. destruct (get_ffmpeg_path env []) as [[p | e'] t'].
  - split; [discriminate | intros [[=] _]].
  - destruct (isinstance e' RuntimeError) eqn:He; cbn [fst]; split.
    + discriminate.
    + intros [[= ->] Hne]. congruence.
    + intros [= ->]. easy.
    + now intros [[= ->] _].
Qed.


(** When the call of the provider raises a [RuntimeError], [main] reports
    the message of the provider on standard error with exit code 1, and
    the OS path is not searched although it may hold ffmpeg. *)
Theorem provider_runtime_error_is_reported (env : Env) (msg : string) :
  imageio_ffmpeg env = Importable (Raise (Exc RuntimeError msg)) ->
  fst (main env []) = Return 1%Z
  /\ written stderr (snd (main env [])) = [msg +:+ nl]
  /\ written stdout (snd (main env [])) = []
  /\ which_calls (snd (main env [])) = [].
Proof.
  intros Hp. rewrite main_run, get_ffmpeg_path_run, Hp. easy.
Qed.

Lemma provider_runtime_error_is_reported_witness :
  fst (main scenario_provider_gives_up []) = Return 1%Z
  /\ written stderr (snd (main scenario_provider_gives_up []))
     = ["No ffmpeg exe could be found." +:+ nl]
  /\ written stdout (snd (main scenario_provider_gives_up [])) = []
  /\ which_calls (snd (main scenario_provider_gives_up [])) = [].
Proof.
  apply (provider_runtime_error_is_reported scenario_provider_gives_up).
  reflexivity.
Defined.

(** ** The remaining tests of the media-assistant suite *)

Section SkillInstructionsFacts.

Import PyStr Re MediaAssistant SkillInstructions.

Lemma chars_app (s1 s2 : string) : chars (s1 +:+ s2) = chars s1 ++ chars s2.
Proof.
  unfold chars. induction s1 as [| c s1 IH]; [reflexivity |].
  change (String c s1 +:+ s2) with (String c (s1 +:+ s2)).
  cbn. now rewrite IH.
Qed.

Lemma of_chars_app (l1 l2 : list ascii) :
  of_chars (l1 ++ l2) = of_chars l1 +:+ of_chars l2.
Proof.
  unfold of_chars. induction l1 as [| c l1 IH]; [reflexivity |].
  cbn [app String.string_of_list_ascii]. rewrite IH. reflexivity.
Qed.

Lemma chars_inj (s1 s2 : string) : chars s1 = chars s2 -> s1 = s2.
Proof.
  intros Heq. rewrite <- (chars_of_chars s1), <- (chars_of_chars s2).
  now rewrite Heq.
Qed.

(** What a literal character, an optional one and a literal text consume. *)
Lemma go_Chr_inv {R : Type} (ml : bool) (c : ascii)
    (before after : list ascii) (g : gmap nat string)
    (k : list ascii -> list ascii -> gmap nat string -> option R) (res : R) :
  go ml (Chr c) before after g k = Some res ->
  exists rest, after = c :: rest /\ k (c :: before) rest g = Some res.
Proof.
  cbn [go]. destruct after as [| x rest]; [discriminate |].
  destruct (Ascii.eqb_spec x c) as [-> |]; [eauto | discriminate].
Qed.

Lemma go_lit_consumed {R : Type} (ml : bool) (l : list ascii) (r : regex) :
  forall (before after : list ascii) (g : gmap nat string)
         (k : list ascii -> list ascii -> gmap nat string -> option R)
         (res : R),
    go ml (lit l r) before after g k = Some res ->
    exists rest,
      after = l ++ rest /\ go ml r (rev l ++ before) rest g k = Some res.
Proof.
  induction l as [| c l IH]; intros before after g k res; cbn [lit].
  - eauto.
  - cbn [go]. intros Hgo.
    destruct after as [| x a]; [discriminate |].
    destruct (Ascii.eqb_spec x c) as [-> |]; [| discriminate].
    apply IH in Hgo as (rest & -> & Hgo). exists rest.
    cbn. now rewrite <- app_assoc.
Qed.

(** An optional character is taken or left. *)
Lemma go_Opt_Chr_inv {R : Type} (ml : bool) (c : ascii) (r : regex)
    (before after : list ascii) (g : gmap nat string)
    (k : list ascii -> list ascii -> gmap nat string -> option R) (res : R) :
  go ml (Seq (Opt (Chr c)) r) before after g k = Some res ->
  (exists rest,
      after = c :: rest /\ go ml r (c :: before) rest g k = Some res)
  \/ go ml r before after g k = Some res.
Proof.
  cbn [go]. destruct after as [| x a]; [now right |].
  destruct (Ascii.eqb_spec x c) as [-> | Hx]; [| now right].
  destruct (go ml r (c :: before) a g k) eqn:Hr; [| now right].
  intros [= ->]. left. eauto.
Qed.

(** An optional carriage return and a line feed: one of the two line
    ends. *)
Lemma go_eol_inv {R : Type} (r : regex) (before after : list ascii)
    (g : gmap nat string)
    (k : list ascii -> list ascii -> gmap nat string -> option R) (res : R) :
  go false (Seq (Opt (Chr CR)) (Seq (Chr LF) r)) before after g k = Some res ->
  exists eol rest,
    (eol = [LF] \/ eol = [CR; LF])
    /\ after = eol ++ rest
    /\ go false r (rev eol ++ before) rest g k = Some res.
Proof.
  intros Hgo. apply go_Opt_Chr_inv in Hgo as [(a & -> & Hgo) | Hgo];
    cbn [go] in Hgo;
    (destruct a as [| y a] || destruct after as [| y a]);
    try discriminate;
    (destruct (Ascii.eqb_spec y LF) as [-> |]; [| discriminate]).
  - exists [CR; LF], a. auto.
  - exists [LF], a. auto.
Qed.

(** The closing part matches wherever a line feed and three hyphens
    stand, and where a carriage return stands before them. *)
Lemma go_close_here {R : Type} (eol before rest : list ascii)
    (g : gmap nat string)
    (k : list ascii -> list ascii -> gmap nat string -> option R) :
  eol = [LF] \/ eol = [CR; LF] ->
  (forall b a g', is_Some (k b a g')) ->
  is_Some (go false FRONTMATTER_CLOSE before
             (eol ++ chars "---" ++ rest) g k).
Proof.
  intros [-> | ->] Hk; cbn.
  - apply Hk.
  - destruct (k _ rest g) as [res |] eqn:Hres; [eauto |].
    destruct (Hk (["-"; "-"; "-"; LF; CR] ++ before)%char rest g) as [? Hs].
    cbn in Hs. congruence.
Qed.

(** A lazy repetition stops at the first place where the rest of the
    pattern matches. *)
Lemma lazy_star_inv {R : Type} (p : ascii -> bool) (after before : list ascii)
    (k : list ascii -> list ascii -> option R) (res : R) :
  lazy_star p before after k = Some res ->
  exists w rest,
    after = w ++ rest
    /\ k (rev w ++ before) rest = Some res
    /\ forall w1 w2, w = w1 ++ w2 -> w2 <> [] ->
                     k (rev w1 ++ before) (w2 ++ rest) = None.
Proof.
  revert before. induction after as [| c l IH]; intros before;
    cbn [lazy_star]; destruct (k before _) as [res' |] eqn:Hk.
  - intros [= ->]. exists [], []. repeat split; [easy |].
    intros w1 w2 Hw Hne. now destruct w1, w2.
  - discriminate.
  - intros [= ->]. exists [], (c :: l). repeat split; [easy |].
    intros w1 w2 Hw Hne. now destruct w1, w2.
  - destruct (p c); [| discriminate]. intros Hl.
    apply IH in Hl as (w & rest & -> & Hres & Hmin).
    exists (c :: w), rest. repeat split.
    + cbn. now rewrite <- app_assoc.
    + intros [| c' w1] w2 Hw Hne; cbn in Hw.
      * subst w2. exact Hk.
      * injection Hw as <- ->. cbn. rewrite <- app_assoc.
        now apply Hmin.
Qed.

Lemma has_infix_split (p l : list ascii) :
  has_infix p l = true -> exists l1 l2, l = l1 ++ p ++ l2.
Proof.
  assert (Hpre : forall p l, is_prefix p l = true -> exists l2, l = p ++ l2).
  { clear. induction p as [| a p IH]; intros l; cbn; [eauto |].
    destruct l as [| b l]; [discriminate |].
    intros [Hab Hp]%andb_true_iff. apply Ascii.eqb_eq in Hab as ->.
    apply IH in Hp as [l2 ->]. eauto. }
  induction l as [| c l IH]; cbn [has_infix].
  - rewrite orb_false_r. intros Hp. apply Hpre in Hp as [l2 ->].
    now exists [], l2.
  - intros [Hp | Hl]%orb_true_iff.
    + apply Hpre in Hp as [l2 ->]. now exists [], l2.
    + apply IH in Hl as (l1 & l2 & ->). now exists (c :: l1), l2.
Qed.


(** The shape of a text that the frontmatter pattern matches. *)
Lemma frontmatter_match_inv (content : string) (m : match_obj) :
  frontmatter_match content = Some m ->
  exists eol1 fm eol2 rest,
    (eol1 = [LF] \/ eol1 = [CR; LF])
    /\ (eol2 = [LF] \/ eol2 = [CR; LF])
    /\ chars content = chars "---" ++ eol1 ++ fm ++ eol2 ++ chars "---" ++ rest
    /\ group m 1 = Some (of_chars fm)
    /\ has_infix (LF :: chars "---") fm = false.
Proof.
  unfold frontmatter_match, FRONTMATTER_OPEN. cbn [go at_bol]. intros Hgo.
  apply go_lit_consumed in Hgo as (a0 & Hcontent & Hgo).
  assert (Hopen : exists eol1 a1 res0,
             (eol1 = [LF] \/ eol1 = [CR; LF]) /\ a0 = eol1 ++ a1
             /\ lazy_star any_char (rev eol1 ++ rev (chars "---")) a1
                  (fun b' a' =>
                     go false FRONTMATTER_CLOSE b' a'
                        (<[1 := span (rev eol1 ++ rev (chars "---")) b']> ∅)
                        (fun b'' _ g' =>
                           Some {| m_start := 0; m_end := length b'';
                                   m_groups := g' |}))
                = Some res0 /\ res0 = m).
  { rewrite app_nil_r in Hgo.
    apply go_Opt_Chr_inv in Hgo as [(a & -> & Hgo) | Hgo];
      apply go_Chr_inv in Hgo as (a1 & -> & Hgo).
    - exists [CR; LF], a1, m. auto.
    - exists [LF], a1, m. auto. }
  destruct Hopen as (eol1 & a1 & res0 & Heol1 & -> & Hlazy & ->).
  apply lazy_star_inv in Hlazy as (w & rest & -> & Hclose & Hmin).
  exists eol1, w.
  pose proof Hclose as Hclose'. unfold FRONTMATTER_CLOSE in Hclose'.
  apply go_eol_inv in Hclose' as (eol2 & a2 & Heol2 & -> & Hlit).
  apply go_lit_consumed in Hlit as (a3 & -> & Hlast).
  apply go_Chr_inv in Hlast as (a4 & -> & Hm). injection Hm as <-.
  exists eol2, a4. split; [exact Heol1 |]. split; [exact Heol2 |].
  split; [| split].
  - rewrite Hcontent. reflexivity.
  - unfold group. cbn [m_groups]. now rewrite span_app.
  - destruct (has_infix (LF :: chars "---") w) eqn:Hin; [| reflexivity].
    apply has_infix_split in Hin as (l1 & l2 & ->).
    specialize (Hmin l1 ((LF :: chars "---") ++ l2) eq_refl).
    assert (Hsome : is_Some
              (go false FRONTMATTER_CLOSE
                 (rev l1 ++ rev eol1 ++ rev (chars "---"))
                 ([LF] ++ chars "---" ++ l2 ++ eol2 ++ chars "--" ++ "-"%char :: a4)
                 (<[1 := span (rev eol1 ++ rev (chars "---"))
                          (rev l1 ++ rev eol1 ++ rev (chars "---"))]> ∅)
                 (fun b'' _ g' =>
                    Some {| m_start := 0; m_end := length b'';
                            m_groups := g' |}))).
    { apply go_close_here; [now left | eauto]. }
    rewrite <- !app_assoc in Hmin. cbn [app] in Hmin, Hsome.
    rewrite Hmin in Hsome; [now destruct Hsome | discriminate].
Qed.

(** When [test_skill_md_has_valid_frontmatter] passes, the text starts with
    three hyphens and a line end, the frontmatter follows up to the first
    line end followed by three hyphens, and the frontmatter contains
    [name:] and [description:]. *)
Theorem valid_frontmatter_shape (content : string) :
  passes (test_skill_md_has_valid_frontmatter content) = true ->
  exists eol1 fm eol2 rest : string,
    (eol1 = nl \/ eol1 = crlf)
    /\ (eol2 = nl \/ eol2 = crlf)
    /\ content = "---" +:+ eol1 +:+ fm +:+ eol2 +:+ "---" +:+ rest
    /\ contains "name:" fm = true
    /\ contains "description:" fm = true
    /\ contains (nl +:+ "---") fm = false.
Proof.
  unfold test_skill_md_has_valid_frontmatter.
  destruct (frontmatter_match content) as [m |] eqn:Hm; [| discriminate].
  apply frontmatter_match_inv in Hm
    as (eol1 & fm & eol2 & rest & Heol1 & Heol2 & Hcontent & -> & Hfirst).
  cbn [default]. rewrite and_then_passes, assert_passes, andb_true_iff.
  intros [Hname Hdesc].
  exists (of_chars eol1), (of_chars fm), (of_chars eol2), (of_chars rest).
  split; [destruct Heol1 as [-> | ->]; auto |].
  split; [destruct Heol2 as [-> | ->]; auto |].
  split; [| split; [exact Hname | split; [exact Hdesc |]]].
  - apply chars_inj. rewrite Hcontent, !chars_app. unfold chars, of_chars.
    now rewrite !String.list_ascii_of_string_of_list_ascii.
  - unfold contains, chars, of_chars.
    now rewrite String.list_ascii_of_string_of_list_ascii.
Qed.

Lemma valid_frontmatter_shape_witness :
  exists eol1 fm eol2 rest : string,
    (eol1 = nl \/ eol1 = crlf)
    /\ (eol2 = nl \/ eol2 = crlf)
    /\ example_skill_md = "---" +:+ eol1 +:+ fm +:+ eol2 +:+ "---" +:+ rest
    /\ contains "name:" fm = true
    /\ contains "description:" fm = true
    /\ contains (nl +:+ "---") fm = false.
Proof. apply (valid_frontmatter_shape example_skill_md). reflexivity. Defined.

(** A [SKILL.md] that passes [test_skill_name_matches] passes
    [test_skill_name_format]: both read the name with the same pattern,
    and the expected name has the required format. *)
Theorem name_matches_implies_name_format (content : string) :
  passes (test_skill_name_matches content) = true ->
  passes (test_skill_name_format content) = true.
Proof.
  unfold test_skill_name_matches, test_skill_name_format.
  destruct (search true NAME_FIELD content) as [m |]; [| discriminate].
  rewrite assert_passes. intros Hname. apply String.eqb_eq in Hname.
  rewrite Hname. reflexivity.
Qed.

Lemma name_matches_implies_name_format_witness :
  passes (test_skill_name_format example_skill_md) = true.
Proof.
  apply (name_matches_implies_name_format example_skill_md). reflexivity.
Defined.

End SkillInstructionsFacts.

(** ** The remaining tests of the rust-ffmpeg frontmatter suite *)

Section RustFrontmatterFacts.

Import PyStr RustFfmpeg RustFrontmatter.

Lemma length_drop_while (p : ascii -> bool) (l : list ascii) :
  (length (drop_while p l) <= length l)%nat.
Proof.
  induction l as [| c l IH]; cbn; [lia |]. destruct (p c); cbn; lia.
Qed.

Lemma len_chars (s : string) : len s = length (chars s).
Proof.
  unfold len, chars. induction s as [| c s IH]; cbn; [easy | now rewrite IH].
Qed.

(** Stripping never makes a string longer. *)
Lemma len_strip_by (p : ascii -> bool) (s : string) :
  (len (strip_by p s) <= len s)%nat.
Proof.
  rewrite !len_chars. unfold strip_by, chars, of_chars.
  rewrite String.list_ascii_of_string_of_list_ascii, length_rev.
  etransitivity; [apply length_drop_while |]. rewrite length_rev.
  apply length_drop_while.
Qed.

(** The three assertions on a key, as one condition. *)
Lemma has_nonempty_str_passes (d : gmap string yaml) (key : string) :
  passes (has_nonempty_str d key) = true
  <-> exists s, d !! key = Some (YStr s) /\ (0 < len (strip s))%nat.
Proof.
  unfold has_nonempty_str.
  rewrite !and_then_passes, assert_passes, !andb_true_iff,
    bool_decide_eq_true.
  destruct (d !! key) as [v |]; cbn [default from_option].
  - destruct v as [| b | z | s | items | entries]; unfold id;
      cbn [is_str stripped_nonempty].
    1-3, 5-6: (split; [intros (_ & Hf & _) | intros (s' & Heq & _)];
               discriminate).
    rewrite Nat.ltb_lt. split.
    + intros (_ & _ & Hs). eauto.
    + intros (s' & [= <-] & Hs). eauto.
  - split; [intros ([? [=]] & _) | intros (s' & [=] & _)].
Qed.

Lemma get_equals_true (d : gmap string yaml) (key s : string) :
  get_equals d key s = true <-> d !! key = Some (YStr s).
Proof.
  unfold get_equals.
  destruct (d !! key) as [[| b | z | v | items | entries] |];
    try (split; [discriminate | intros [=]]).
  rewrite String.eqb_eq. split; [now intros -> | now intros [= ->]].
Qed.

(** A frontmatter that passes [test_frontmatter_name_is_rust_ffmpeg]
    passes [test_frontmatter_has_name]. *)
Theorem exact_name_implies_has_name (fm : gmap string yaml) :
  passes (test_frontmatter_name_is_rust_ffmpeg fm) = true ->
  passes (test_frontmatter_has_name fm) = true.
Proof.
  unfold test_frontmatter_name_is_rust_ffmpeg, test_frontmatter_has_name.
  rewrite assert_passes, get_equals_true, has_nonempty_str_passes.
  intros Hname. exists "rust-ffmpeg". split; [exact Hname |].
  vm_compute. lia.
Qed.

Lemma exact_name_implies_has_name_witness :
  passes (test_frontmatter_has_name long_frontmatter) = true.
Proof. apply (exact_name_implies_has_name long_frontmatter). reflexivity. Defined.

(** A frontmatter that passes both description tests carries a description
    that is a string of 1 to 4095 characters, not all of them white
    space. *)
Theorem description_tests_together (fm : gmap string yaml) :
  passes (test_frontmatter_has_description fm) = true ->
  passes (test_description_length_reasonable fm) = true ->
  exists desc,
    fm !! "description" = Some (YStr desc)
    /\ (0 < len desc < 4096)%nat
    /\ strip desc <> "".
Proof.
  unfold test_frontmatter_has_description.
  rewrite has_nonempty_str_passes. intros (desc & Hd & Hlen).
  rewrite (rust_description_passes fm desc Hd). intros Hmax.
  exists desc. split; [exact Hd |]. split.
  - pose proof (len_strip_by isspace desc). unfold strip in Hlen. lia.
  - intros Hempty. rewrite Hempty in Hlen. cbn in Hlen. lia.
Qed.

Lemma description_tests_together_witness :
  exists desc,
    long_frontmatter !! "description" = Some (YStr desc)
    /\ (0 < len desc < 4096)%nat
    /\ strip desc <> "".
Proof.
  apply (description_tests_together long_frontmatter).
  - reflexivity.
  - reflexivity.
Defined.

End RustFrontmatterFacts.

(** ** The [skill_frontmatter] fixture *)

Section ConftestFacts.

Import PyStr RustFfmpeg Conftest.

Lemma is_prefix_split (p l : list ascii) :
  is_prefix p l = true -> exists l2, l = p ++ l2.
Proof.
  revert l. induction p as [| a p IH]; intros l; cbn; [eauto |].
  destruct l as [| b l]; [discriminate |].
  intros [Hab Hp]%andb_true_iff. apply Ascii.eqb_eq in Hab as ->.
  apply IH in Hp as [l2 ->]. eauto.
Qed.

Lemma is_prefix_app (p l l' : list ascii) :
  is_prefix p l = true -> is_prefix p (l ++ l') = true.
Proof.
  revert l. induction p as [| a p IH]; intros l; cbn; [easy |].
  destruct l as [| b l]; [discriminate |]. cbn.
  intros [Hab Hp]%andb_true_iff. rewrite Hab. now apply IH.
Qed.

(** The first occurrence of a separator: the text splits there, and the
    part before holds no occurrence. *)
Lemma split_once_inv (sep l pre post : list ascii) :
  sep <> [] ->
  split_once sep l = Some (pre, post) ->
  l = pre ++ sep ++ post /\ has_infix sep pre = false.
Proof.
  intros Hsep. revert pre post.
  induction l as [| c l IH]; intros pre post; cbn [split_once];
    destruct (is_prefix sep _) eqn:Hp.
  - intros [= <- <-]. destruct sep; [contradiction | discriminate].
  - discriminate.
  - intros [= <- <-]. apply is_prefix_split in Hp as [l2 Hl2].
    rewrite Hl2, drop_app_length. split; [easy |].
    destruct sep; [contradiction | reflexivity].
  - destruct (split_once sep l) as [[pre' post'] |] eqn:Hs; [| discriminate].
    intros [= <- <-]. destruct (IH _ _ eq_refl) as [-> Hno].
    split; [easy |]. cbn [has_infix]. rewrite Hno, orb_false_r.
    destruct (is_prefix sep (c :: pre')) eqn:Hp'; [| reflexivity].
    apply (is_prefix_app _ _ (sep ++ post')) in Hp'. cbn in Hp, Hp'.
    congruence.
Qed.

Lemma drop_while_split (p : ascii -> bool) (l : list ascii) :
  exists ws, l = ws ++ drop_while p l /\ forallb p ws = true.
Proof.
  induction l as [| c l (ws & Hl & Hws)]; [now exists [] |].
  cbn [drop_while]. destruct (p c) eqn:Hc.
  - exists (c :: ws). cbn. rewrite Hc, Hws. split; [now f_equal | easy].
  - now exists [].
Qed.

(** A text that starts with three hyphens after stripping consists of white
    space followed by the three hyphens. *)
Lemma stripped_startswith (s : string) :
  startswith (strip s) "---" = true ->
  exists ws l2,
    chars s = ws ++ chars "---" ++ l2 /\ forallb isspace ws = true.
Proof.
  unfold startswith, strip, strip_by, chars, of_chars.
  rewrite String.list_ascii_of_string_of_list_ascii.
  set (l := String.list_ascii_of_string s).
  destruct (drop_while_split isspace l) as (ws & Hl & Hws).
  destruct (drop_while_split isspace (rev (drop_while isspace l)))
    as (ws' & Hrev & _).
  intros Hp.
  apply (is_prefix_app _ _ (rev ws')) in Hp.
  rewrite <- rev_app_distr, <- Hrev, rev_involutive in Hp.
  apply is_prefix_split in Hp as [l2 Hl2].
  exists ws, l2. rewrite <- Hl2. easy.
Qed.

Lemma split_once_after_space (ws l2 : list ascii) :
  forallb isspace ws = true ->
  split_once (chars "---") (ws ++ chars "---" ++ l2) = Some (ws, l2).
Proof.
  induction ws as [| c ws IH]; [reflexivity |].
  cbn [forallb]. intros [Hc Hws]%andb_true_iff.
  cbn [app split_once]. rewrite (IH Hws).
  assert (Hne : Ascii.eqb "-" c = false).
  { destruct (Ascii.eqb_spec "-"%char c) as [<- |];
      [discriminate Hc | reflexivity]. }
  change (chars "---") with ("-"%char :: chars "--") at 1.
  cbn [is_prefix]. now rewrite Hne.
Qed.

(** The text that reaches the parser lies between the first two markers. *)
Lemma frontmatter_text_inv (content fm : string) :
  frontmatter_text content = Some fm ->
  exists pre post : string,
    content = pre +:+ "---" +:+ fm +:+ "---" +:+ post
    /\ forallb isspace (chars pre) = true
    /\ contains "---" fm = false.
Proof.
  unfold frontmatter_text.
  destruct (startswith (strip content) "---") eqn:Hstart; [| discriminate].
  apply stripped_startswith in Hstart as (ws & l2 & Hcontent & Hws).
  cbn [negb]. unfold split. rewrite Hcontent. cbn [split_max].
  change (chars "---") with (chars "---") at 1.
  rewrite (split_once_after_space ws l2 Hws).
  destruct (split_once (chars "---") l2) as [[mid post] |] eqn:Hsecond;
    [| discriminate].
  cbn. intros [= <-].
  apply split_once_inv in Hsecond as [-> Hno]; [| discriminate].
  exists (of_chars ws), (of_chars post). split; [| split].
  - apply chars_inj. rewrite Hcontent, !chars_app. unfold chars, of_chars.
    now rewrite !String.list_ascii_of_string_of_list_ascii.
  - unfold chars, of_chars.
    now rewrite String.list_ascii_of_string_of_list_ascii.
  - unfold contains, chars, of_chars.
    now rewrite String.list_ascii_of_string_of_list_ascii.
Qed.

Variable safe_load : string -> outcome yaml.

(** Whatever the fixture returns is the empty dictionary or a truthy value
    that the YAML parser produced from the text between the first two
    [---] markers of the file; before the first marker there is only white
    space, and the parsed text holds no marker. *)
Theorem fixture_parses_between_markers (content : string) (v : yaml) :
  skill_frontmatter safe_load content = Return v ->
  v = YMap []
  \/ exists pre fm post : string,
       content = pre +:+ "---" +:+ fm +:+ "---" +:+ post
       /\ forallb isspace (chars pre) = true
       /\ contains "---" fm = false
       /\ safe_load fm = Return v
       /\ yaml_truthy v = true.
Proof.
  unfold skill_frontmatter.
  destruct (frontmatter_text content) as [fm |] eqn:Htext.
  - destruct (safe_load fm) as [v' | e] eqn:Hload; [| discriminate].
    cbn [and_then]. destruct (yaml_truthy v') eqn:Htruthy.
    + intros [= <-]. right.
      apply frontmatter_text_inv in Htext as (pre & post & Hc & Hpre & Hfm).
      exists pre, fm, post. easy.
    + intros [= <-]. now left.
  - intros [= <-]. now left.
Qed.

End ConftestFacts.

Lemma fixture_parses_between_markers_witness :
  RustFfmpeg.YMap
    [ ("name", RustFfmpeg.YStr "rust-ffmpeg");
      ("description", RustFfmpeg.YStr "Work with FFmpeg from Rust.");
      ("license", RustFfmpeg.YStr "MIT") ] = RustFfmpeg.YMap []
  \/ exists pre fm post : string,
       Conftest.example_skill_md = pre +:+ "---" +:+ fm +:+ "---" +:+ post
       /\ forallb PyStr.isspace (PyStr.chars pre) = true
       /\ PyStr.contains "---" fm = false
       /\ Conftest.example_loader fm
          = Return (RustFfmpeg.YMap
                      [ ("name", RustFfmpeg.YStr "rust-ffmpeg");
                        ("description",
                         RustFfmpeg.YStr "Work with FFmpeg from Rust.");
                        ("license", RustFfmpeg.YStr "MIT") ])
       /\ Conftest.yaml_truthy
            (RustFfmpeg.YMap
               [ ("name", RustFfmpeg.YStr "rust-ffmpeg");
                 ("description",
                  RustFfmpeg.YStr "Work with FFmpeg from Rust.");
                 ("license", RustFfmpeg.YStr "MIT") ]) = true.
Proof.
  apply (fixture_parses_between_markers
           Conftest.example_loader Conftest.example_skill_md).
  reflexivity.
Defined.

(** ** The list of expected references *)

Section ReferencesFacts.

Import PyStr Links ReferencesExist.

Lemma elem_of_sorted_set (l : list string) (x : string) :
  x ∈ sorted_set l <-> x ∈ l.
Proof.
  unfold sorted_set.
  now rewrite merge_sort_Permutation, elem_of_elements, elem_of_list_to_set.
Qed.

Lemma NoDup_sorted_set (l : list string) : NoDup (sorted_set l).
Proof.
  unfold sorted_set. rewrite merge_sort_Permutation. apply NoDup_elements.
Qed.

Lemma StronglySorted_sorted_set (l : list string) :
  StronglySorted String.le (sorted_set l).
Proof. unfold sorted_set. apply StronglySorted_merge_sort; apply _. Qed.

Lemma StronglySorted_filter {A : Type} (R : relation A) (P : A -> Prop)
    `{forall x, Decision (P x)} (l : list A) :
  StronglySorted R l -> StronglySorted R (filter P l).
Proof.
  induction 1 as [| a l Hl IH Ha]; [constructor |].
  rewrite filter_cons. destruct (decide (P a)); [| exact IH].
  constructor; [exact IH |].
  rewrite Forall_forall in *. intros x Hx.
  apply list_elem_of_filter in Hx as [_ Hx]. now apply Ha.
Qed.

Context {Path : Type} `{FileSystem Path}.

(** [test_all_expected_references_exist] passes exactly when every listed
    file exists under the skill root. *)
Theorem references_test_passes_iff (skill_root : Path) :
  test_all_expected_references_exist skill_root = Passed
  <-> forall rel_path,
        rel_path ∈ EXPECTED_REFERENCES ->
        exists_ (joinpath skill_root rel_path) = true.
Proof.
  unfold test_all_expected_references_exist.
  destruct (missing_references skill_root) as [| rel rest] eqn:Hmissing.
  - split; [intros _ | easy]. intros rel_path Hin.
    rewrite <- elem_of_sorted_set in Hin.
    destruct (exists_ (joinpath skill_root rel_path)) eqn:Hex; [easy |].
    exfalso. eapply (filter_nil_not_elem_of _ _ rel_path); eauto.
  - split; [discriminate |]. intros Hall. exfalso.
    assert (Hin : rel ∈ missing_references skill_root)
      by (rewrite Hmissing; left).
    unfold missing_references in Hin.
    apply list_elem_of_filter in Hin as [Hno Hin].
    rewrite elem_of_sorted_set in Hin. rewrite (Hall rel Hin) in Hno.
    discriminate.
Qed.

(** The files named in the failure message: exactly the listed files that
    do not exist, each one once although the list names two files twice,
    in ascending order. *)
Theorem missing_references_spec (skill_root : Path) :
  NoDup (missing_references skill_root)
  /\ StronglySorted String.le (missing_references skill_root)
  /\ forall rel_path,
       rel_path ∈ missing_references skill_root
       <-> rel_path ∈ EXPECTED_REFERENCES
           /\ exists_ (joinpath skill_root rel_path) = false.
Proof.
  unfold missing_references. split; [| split].
  - apply NoDup_filter, NoDup_sorted_set.
  - apply StronglySorted_filter, StronglySorted_sorted_set.
  - intros rel_path. rewrite list_elem_of_filter, elem_of_sorted_set. tauto.
Qed.

End ReferencesFacts.

(** ** The links that the checker extracts *)

Section LinksFacts.

Import PyStr Re Links LinksTest.

(** A pattern without groups hands the groups on unchanged. *)
Lemma go_group_free {R : Type} (ml : bool) (r : regex) :
  group_free r = true ->
  forall (before after : list ascii) (g : gmap nat string)
         (k : list ascii -> list ascii -> gmap nat string -> option R)
         (res : R),
    go ml r before after g k = Some res ->
    exists b a, k b a g = Some res.
Proof.
  induction r as [c | p | p | p | r IH | n r IH | r1 IH1 r2 IH2 | |];
    intros Hfree before after g k res; cbn [go]; cbn in Hfree.
  - destruct after as [| x l]; [discriminate |].
    destruct (Ascii.eqb x c); [eauto | discriminate].
  - destruct after as [| x l]; [discriminate |].
    destruct (p x); [eauto | discriminate].
  - intros Hs. apply star_inv in Hs as (w & rest & _ & _ & Hk). eauto.
  - destruct after as [| x l]; [discriminate |].
    destruct (p x); [| discriminate].
    intros Hs. apply star_inv in Hs as (w & rest & _ & _ & Hk). eauto.
  - destruct (go ml r before after g k) as [res' |] eqn:Hgo; [| eauto].
    intros [= ->]. eauto.
  - discriminate.
  - apply andb_true_iff in Hfree as [H1 H2].
    intros Hgo. apply (IH1 H1) in Hgo as (b & a & Hk). eauto.
  - destruct (at_bol ml before); [eauto | discriminate].
  - destruct (at_eol ml after); [eauto | discriminate].
Qed.

(** Group 2 of a match of [LINK_PATTERN] is not empty and holds neither a
    closing parenthesis nor a hash. *)
Lemma link_group_2 (before after : list ascii) (m : match_obj) :
  match_at false LINK_PATTERN before after = Some m ->
  exists w,
    group m 2 = Some (of_chars w)
    /\ w <> []
    /\ forallb (none_of [")"; "#"]%char) w = true.
Proof.
  unfold match_at, LINK_PATTERN. intros Hgo.
  cbn [go] in Hgo.
  destruct after as [| x0 a0]; [discriminate |].
  destruct (Ascii.eqb x0 "["); [| discriminate].
  apply star_inv in Hgo as (w1 & a1 & _ & _ & Hgo).
  destruct a1 as [| x1 a1]; [discriminate |].
  destruct (Ascii.eqb x1 "]"); [| discriminate].
  destruct a1 as [| x2 a1]; [discriminate |].
  destruct (Ascii.eqb x2 "("); [| discriminate].
  destruct a1 as [| x3 a1]; [discriminate |].
  destruct (none_of [")"; "#"]%char x3) eqn:Hx3; [| discriminate].
  apply star_inv in Hgo as (w2 & a2 & _ & Hw2 & Hgo).
  change (go false
            (Seq (Opt (Seq (Chr "#") (Star dot))) (Chr ")"))
            (rev w2 ++ x3 :: x2 :: x1 :: rev w1 ++ [x0] ++ before) a2
            (<[2 := span (x2 :: x1 :: rev w1 ++ [x0] ++ before)
                         (rev w2 ++ x3 :: x2 :: x1 :: rev w1 ++ [x0]
                          ++ before)]>
               (<[1 := span (x0 :: before) (rev w1 ++ x0 :: before)]> ∅))
            (fun b _ g =>
               Some {| m_start := length before; m_end := length b;
                       m_groups := g |}) = Some m) in Hgo.
  apply go_group_free in Hgo as (b & a & Hm); [| reflexivity].
  injection Hm as <-. exists (x3 :: w2). unfold group. cbn [m_groups].
  rewrite lookup_insert_eq. split; [| split; [discriminate |]].
  - f_equal.
    rewrite <- (span_app (x2 :: x1 :: rev w1 ++ [x0] ++ before) (x3 :: w2)).
    f_equal. cbn [rev]. now rewrite <- app_assoc.
  - cbn [forallb]. now rewrite Hx3, Hw2.
Qed.

Lemma finditer_from_inv (ml : bool) (r : regex) (after : list ascii) :
  forall (skip : nat) (before : list ascii) (m : match_obj),
    m ∈ finditer_from ml r skip before after ->
    exists b a, match_at ml r b a = Some m.
Proof.
  induction after as [| c l IH]; intros skip before m; cbn [finditer_from].
  - destruct skip; [| intros Hin; inversion Hin].
    destruct (match_at ml r before []) as [m' |] eqn:Hm;
      [| intros Hin; inversion Hin].
    intros Hin. apply elem_of_cons in Hin as [-> | Hin];
      [eauto | inversion Hin].
  - destruct skip; [| apply IH].
    destruct (match_at ml r before (c :: l)) as [m' |] eqn:Hm; [| apply IH].
    intros Hin. apply elem_of_cons in Hin as [-> | Hin]; [eauto |].
    now apply IH in Hin.
Qed.

Lemma forallb_strip_by (q p : ascii -> bool) (s : string) :
  forallb q (chars s) = true -> forallb q (chars (strip_by p s)) = true.
Proof.
  unfold strip_by, chars, of_chars.
  rewrite String.list_ascii_of_string_of_list_ascii. intros Hs.
  rewrite forallb_rev. apply forallb_drop_while.
  rewrite forallb_rev. now apply forallb_drop_while.
Qed.

Context {Path : Type} `{FileSystem Path}.

(** Every link that [_extract_internal_links] returns has a path that is
    not empty, holds no hash and no closing parenthesis (the anchor is cut
    off), starts with none of the external schemes, and is paired with its
    own resolution against the base directory. *)
Theorem extracted_links_are_internal (content : string) (base_dir : Path)
    (raw_path : string) (resolved : Path) :
  (raw_path, resolved) ∈ _extract_internal_links content base_dir ->
  raw_path <> ""
  /\ forallb (none_of [")"; "#"]%char) (chars raw_path) = true
  /\ startswith raw_path "http://" = false
  /\ startswith raw_path "https://" = false
  /\ startswith raw_path "mailto:" = false
  /\ resolved = resolve (joinpath base_dir raw_path).
Proof.
  unfold _extract_internal_links. rewrite links_of_matches_spec.
  intros (m & Hm & Hraw & Hne & Hext & Hres).
  unfold external_prefixes in Hext. cbn [existsb] in Hext.
  rewrite !orb_false_iff in Hext.
  split; [exact Hne |]. split; [| tauto].
  apply finditer_from_inv in Hm as (b & a & Hm).
  apply link_group_2 in Hm as (w & Hg & _ & Hw).
  rewrite Hraw, Hg. unfold default, id. cbn [from_option]. unfold strip.
  apply forallb_strip_by. unfold chars, of_chars.
  now rewrite String.list_ascii_of_string_of_list_ascii.
Qed.

Variable relative_to : Path -> Path -> Path.
Variable show : Path -> string.

(** [test_no_broken_links] passes exactly when, in every collected file,
    every match of [LINK_PATTERN] whose stripped path is not empty and
    names no external scheme resolves to something that exists. *)
Theorem test_no_broken_links_passes_iff (skill_root : Path) :
  test_no_broken_links relative_to show skill_root = Passed
  <-> forall md_file m,
        md_file ∈ _collect_all_md_files skill_root ->
        m ∈ finditer false LINK_PATTERN (read_text md_file) ->
        let raw_path := strip (default "" (group m 2)) in
        raw_path <> "" ->
        existsb (startswith raw_path) external_prefixes = false ->
        exists_ (resolve (joinpath (parent md_file) raw_path)) = true.
Proof.
  unfold test_no_broken_links.
  destruct (_find_broken_links skill_root) as [| [[f raw] res] rest]
    eqn:Hbroken.
  - split; [intros _ | easy]. cbn zeta. intros md_file m Hfile Hm.
    set (raw_path := strip (default "" (group m 2))). intros Hne Hext.
    destruct (exists_ (resolve (joinpath (parent md_file) raw_path)))
      eqn:Hex; [easy |]. exfalso.
    assert (Hin : (md_file, raw_path,
                   resolve (joinpath (parent md_file) raw_path))
                  ∈ _find_broken_links skill_root).
    { apply find_broken_links_spec. split; [easy |]. split; [| easy].
      exists m. easy. }
    rewrite Hbroken in Hin. inversion Hin.
  - split; [discriminate |]. intros Hall. exfalso.
    assert (Hin : (f, raw, res) ∈ _find_broken_links skill_root)
      by (rewrite Hbroken; left).
    apply find_broken_links_spec in Hin
      as (Hfile & (m & Hm & -> & Hne & Hext & ->) & Hex).
    rewrite (Hall f m Hfile Hm Hne Hext) in Hex. discriminate.
Qed.

End LinksFacts.

Lemma extracted_links_are_internal_witness :
  "references/quick_start.md" <> ""
  /\ forallb (Re.none_of [")"; "#"]%char)
       (PyStr.chars "references/quick_start.md") = true
  /\ PyStr.startswith "references/quick_start.md" "http://" = false
  /\ PyStr.startswith "references/quick_start.md" "https://" = false
  /\ PyStr.startswith "references/quick_start.md" "mailto:" = false
  /\ "/repo/skills/rust-ffmpeg/references/quick_start.md"
     = @Links.resolve _ (Links.mem_fs Links.skill_two_links_swapped)
         (@Links.joinpath _ (Links.mem_fs Links.skill_two_links_swapped)
            "/repo/skills/rust-ffmpeg" "references/quick_start.md").
Proof.
  apply (@extracted_links_are_internal _
           (Links.mem_fs Links.skill_two_links_swapped)
           (@Links.read_text _ (Links.mem_fs Links.skill_two_links_swapped)
              "/repo/skills/rust-ffmpeg/SKILL.md")).
  vm_compute. left.
Defined.
